(** * Documentation notebooks: RunPod LLM and long-text extraction

    A shallow embedding of the code cells of the notebooks collected in
    [docs/docs/integrations/tools/google_drive.ipynb]: the RunPod LLM
    cells (guarded invoke / stream calls) and the long-text extraction
    cells (set up, schema, brute-force chunk loop, merge, RAG variant).

    Python values are modelled as follows.
    - [str] is a [string] of UTF-8 bytes.  The byte 10 (newline) never
      occurs inside a multi-byte code point, so a search for newlines on
      the bytes finds exactly the newlines of the text.
    - a [dict] with string keys is a [gmap string _];
    - a [list] is a [list]; [xs[0]] raises [IndexError] on an empty list;
    - a call that may raise returns an [outcome];
    - every interaction with the outside (HTTP, files, the vector index,
      the chat model, the RunPod endpoint, standard output) appends an
      [event] to the trace.  What an outside service
      answers is not known: it is a field of [Services], and it may depend
      on the whole trace so far;
    - a batch runs in a thread pool: its calls are whole events of the
      trace, in an order the pool chooses. *)

From Stdlib Require Import Ascii String ZArith Lia.
From stdpp Require Import gmap strings list.

Open Scope string_scope.
Open Scope list_scope.

(* ===================================================================== *)
(** ** Python runtime: exceptions and outcomes *)
(* ===================================================================== *)

(** The part of the built-in exception hierarchy the cells can meet.
    [KeyboardInterrupt], [SystemExit], [GeneratorExit] and
    [asyncio.CancelledError] derive from [BaseException] only; all the
    others derive from [Exception]. *)
Inductive exc_class :=
| KeyboardInterrupt
| SystemExit
| GeneratorExit
| CancelledError
| IndexError
| KeyError
| ValueError
| ConnectionError
| TimeoutError
| RuntimeError
| OtherException (name : string).

(** [isinstance(e, Exception)] *)
Definition isinstance_Exception (c : exc_class) : bool :=
  match c with
  | KeyboardInterrupt | SystemExit | GeneratorExit | CancelledError => false
  | _ => true
  end.

(** An exception object: its class and [str(e)]. *)
Record exception := Exc { exc_cls : exc_class; exc_str : string }.

Inductive outcome (A : Type) :=
| Ok (a : A)
| Raise (e : exception).
Arguments Ok {A} a.
Arguments Raise {A} e.

(* ===================================================================== *)
(** ** Regular expressions: the fragment used by the clean-up step *)
(* ===================================================================== *)

Module Re.

(** A pattern of this fragment is a sequence of atoms: a literal
    character [c], or [c+] (one or more [c], greedy). *)
Inductive atom :=
| One (c : ascii)
| Many (c : ascii).

Definition pattern := list atom.

(** [re.compile]: a character followed by [+] is a repetition, any other
    character stands for itself. *)
Fixpoint compile (src : string) : pattern :=
  match src with
  | EmptyString => []
  | String c rest =>
      match rest with
      | String "+"%char rest' => Many c :: compile rest'
      | _ => One c :: compile rest
      end
  end.

(** [match_len p s]: the length of the match of [p] at the start of [s],
    if there is one.  A repetition takes as many characters as it can
    and gives them back one at a time when the rest of the pattern does
    not match (backtracking). *)
Fixpoint match_len (p : pattern) : string -> option nat :=
  match p with
  | [] => fun _ => Some 0
  | One c :: p' => fun s =>
      match s with
      | String x s' => if Ascii.eqb x c then S <$> match_len p' s' else None
      | EmptyString => None
      end
  | Many c :: p' => fun s =>
      match s with
      | String x s' =>
          if Ascii.eqb x c then
            S <$> (fix more (t : string) : option nat :=
                     match t with
                     | String y t' =>
                         if Ascii.eqb y c then
                           match more t' with
                           | Some n => Some (S n)
                           | None => match_len p' t
                           end
                         else match_len p' t
                     | EmptyString => match_len p' t
                     end) s'
          else None
      | EmptyString => None
      end
  end.

(** The scan of [re.sub]: left to right, at each position the pattern is
    tried; a match is replaced by [repl] and the scan resumes after it
    ([skip] counts the characters of the match still to pass over); where
    there is no match the character is copied.  An empty match inserts
    [repl] and copies the character. *)
Fixpoint sub_scan (p : pattern) (repl : string) (skip : nat) (s : string) : string :=
  match skip with
  | S k =>
      match s with
      | EmptyString => EmptyString
      | String _ s' => sub_scan p repl k s'
      end
  | O =>
      match match_len p s with
      | Some (S n) =>
          repl +:+ match s with
                   | EmptyString => EmptyString
                   | String _ s' => sub_scan p repl n s'
                   end
      | Some O =>
          repl +:+ match s with
                   | EmptyString => EmptyString
                   | String c s' => String c (sub_scan p repl 0 s')
                   end
      | None =>
          match s with
          | EmptyString => EmptyString
          | String c s' => String c (sub_scan p repl 0 s')
          end
      end
  end.

(** [re.sub(pattern, repl, string)] *)
Definition sub (pat repl s : string) : string :=
  sub_scan (compile pat) repl 0 s.

End Re.

(** The newline character, ["\n"]. *)
Definition nl : ascii := "010"%char.

(** The Python literal ["\n\n+"]: newline, newline, plus sign. *)
Definition blank_lines_pattern : string :=
  String nl (String nl (String "+"%char EmptyString)).

(** The Python literal ["\n"]. *)
Definition single_newline : string := String nl EmptyString.

(** [re.sub("\n\n+", "\n", content)]: replace consecutive new lines with
    a single new line. *)
Definition clean_up (content : string) : string :=
  Re.sub blank_lines_pattern single_newline content.

(* ===================================================================== *)
(** ** Data: documents, messages, the extraction schema *)
(* ===================================================================== *)

(** [langchain_core.documents.Document]: text content and metadata. *)
Record Document := { page_content : string; metadata : gmap string string }.

(** [document.page_content = v] *)
Definition set_page_content (d : Document) (v : string) : Document :=
  {| page_content := v; metadata := metadata d |}.

(** Chat messages produced by the prompt. *)
Inductive message :=
| SystemMessage (content : string)
| HumanMessage (content : string).

(** An answer of the chat model: its text and the tool calls it asks
    for, each with the name of the tool and its arguments as sent. *)
Record tool_call := { tool_name : string; tool_args : string }.

Record AIMessage := { content : string; tool_calls : list tool_call }.

(** [class KeyDevelopment(BaseModel)] *)
Record KeyDevelopment := {
  year : Z;
  description : string;
  evidence : string
}.

(** [class ExtractionData(BaseModel)] *)
Record ExtractionData := { key_developments : list KeyDevelopment }.

(** The class bodies as declarations: one entry per annotated
    attribute, with its annotation and whether [Field(...)] (or the
    absence of a default) makes it required. *)
Inductive py_type :=
| TInt
| TStr
| TList (elem : py_type)
| TModel (name : string).

Record field_decl := {
  f_name : string;
  f_type : py_type;
  f_required : bool;
  f_description : option string
}.

Record model_decl := {
  m_name : string;
  m_doc : string;
  m_fields : list field_decl
}.

Definition KeyDevelopment_decl : model_decl :=
  {| m_name := "KeyDevelopment";
     m_doc := "Information about a development in the history of cars.";
     m_fields :=
       [ {| f_name := "year"; f_type := TInt; f_required := true;
            f_description :=
              Some "The year when there was an important historic development." |};
         {| f_name := "description"; f_type := TStr; f_required := true;
            f_description :=
              Some "What happened in this year? What was the development?" |};
         {| f_name := "evidence"; f_type := TStr; f_required := true;
            f_description :=
              Some "Repeat in verbatim the sentence(s) from which the year and description information were extracted" |} ] |}.

Definition ExtractionData_decl : model_decl :=
  {| m_name := "ExtractionData";
     m_doc := "Extracted information about key developments in the history of cars.";
     m_fields :=
       [ {| f_name := "key_developments";
            f_type := TList (TModel "KeyDevelopment");
            f_required := true;
            f_description := None |} ] |}.

(** Python values, as far as the schema needs them, and [model.dict()]. *)
#[warnings="-register-all"]
Inductive value :=
| VInt (z : Z)
| VStr (s : string)
| VList (vs : list value)
| VModel (name : string) (fields : list (string * value)).

Definition KeyDevelopment_dict (kd : KeyDevelopment) : value :=
  VModel "KeyDevelopment"
    [ ("year", VInt (year kd));
      ("description", VStr (description kd));
      ("evidence", VStr (evidence kd)) ].

Definition ExtractionData_dict (ed : ExtractionData) : value :=
  VModel "ExtractionData"
    [ ("key_developments", VList (KeyDevelopment_dict <$> key_developments ed)) ].

Definition lookup_decl (decls : list model_decl) (name : string) : option model_decl :=
  find (fun d => String.eqb (m_name d) name) decls.

(** [conforms decls t v]: the value [v] is an instance of the annotation
    [t]; a model instance carries exactly the declared fields, in the
    declared order, each an instance of its annotation. *)
Fixpoint conforms (decls : list model_decl) (t : py_type) (v : value) {struct v} : bool :=
  match t, v with
  | TInt, VInt _ => true
  | TStr, VStr _ => true
  | TList t', VList vs => forallb (conforms decls t') vs
  | TModel name, VModel name' fields =>
      String.eqb name name' &&
      match lookup_decl decls name with
      | Some d =>
          (fix go (fds : list field_decl) (kvs : list (string * value)) {struct kvs} : bool :=
             match fds, kvs with
             | [], [] => true
             | fd :: fds', (k, v') :: kvs' =>
                 String.eqb (f_name fd) k && conforms decls (f_type fd) v' && go fds' kvs'
             | _, _ => false
             end) (m_fields d) fields
      | None => false
      end
  | _, _ => false
  end.

Definition schema : list model_decl := [KeyDevelopment_decl; ExtractionData_decl].

(* ===================================================================== *)
(** ** The outside world: events, services, and the monad of the cells *)
(* ===================================================================== *)

(** The four ways the RunPod notebook calls the endpoint. *)
Inductive runpod_method := m_invoke | m_stream | m_ainvoke | m_astream.

Inductive event :=
| EvHttpGet (url : string)
| EvWriteFile (path : string) (data : string)
| EvLoadHtml (path : string)
| EvIndexTexts (texts : list string)
| EvSimilaritySearch (texts : list string) (query : string) (k : nat)
| EvChat (messages : list message)
| EvRunPod (m : runpod_method) (prompt : string)
| EvPrint (text : string).

Definition trace := list event.

(** What a generator yields before it is exhausted ([None]) or raises. *)
Record stream_result := {
  chunks : list string;
  ending : option exception
}.

(** The external collaborators.  Each answer may depend on the trace so
    far; the text splitter is a function of its parameters and input.
    [chat_model] is the chat model bound to the schema as a tool;
    [validate_tool_call] builds an [ExtractionData] from a tool call or
    raises when the arguments do not validate.  [pool_order] and
    [pool_cancels] are the thread pool of a batch: which of the pending
    invocations it starts next, and whether it cancels in time one that
    can be cancelled, is its own business (see [schedule] and
    [run_pool]). *)
Record Services := {
  http_get : trace -> string -> outcome string;
  write_file : trace -> string -> string -> outcome unit;
  bs_html_load : trace -> string -> outcome (list Document);
  split_text : nat -> nat -> string -> list string;
  faiss_from_texts : trace -> list string -> outcome unit;
  similarity_search : trace -> list string -> string -> nat -> outcome (list Document);
  chat_model : trace -> list message -> outcome AIMessage;
  validate_tool_call : tool_call -> outcome ExtractionData;
  pool_order : trace -> nat -> nat;
  pool_cancels : trace -> nat -> bool;
  runpod_generate : trace -> runpod_method -> string -> outcome string;
  runpod_stream : trace -> runpod_method -> string -> stream_result
}.

(** The parser of the structured output, with [first_tool_only]: the
    extraction of the first tool call of the answer, and [None] when
    the answer has no tool call. *)
Definition tools_parser (sv : Services) (answer : AIMessage)
  : outcome (option ExtractionData) :=
  match tool_calls answer with
  | [] => Ok None
  | call :: _ =>
      match validate_tool_call sv call with
      | Ok extraction => Ok (Some extraction)
      | Raise e => Raise e
      end
  end.

(** One call of the chat model followed by the parser of its answer. *)
Definition chat_structured (sv : Services) (tr : trace) (msgs : list message)
  : outcome (option ExtractionData) :=
  match chat_model sv tr msgs with
  | Ok answer => tools_parser sv answer
  | Raise e => Raise e
  end.

(** A cell is a computation on the trace that returns or raises. *)
Definition M (A : Type) : Type := trace -> outcome A * trace.

Definition ret {A} (a : A) : M A := fun tr => (Ok a, tr).

Definition raise {A} (e : exception) : M A := fun tr => (Raise e, tr).

(** A computation that touches nothing and ends as [o]. *)
Definition of_outcome {A} (o : outcome A) : M A := fun tr => (o, tr).

Definition bind {A B} (m : M A) (k : A -> M B) : M B :=
  fun tr =>
    match m tr with
    | (Ok a, tr') => k a tr'
    | (Raise e, tr') => (Raise e, tr')
    end.

Declare Scope cell_scope.
Delimit Scope cell_scope with cell.
Bind Scope cell_scope with M.
Notation "x <- m ;; k" := (bind m (fun x => k))
  (at level 100, m at next level, right associativity) : cell_scope.
Notation "m ;; k" := (bind m (fun _ => k))
  (at level 100, right associativity) : cell_scope.
Open Scope cell_scope.

(** A call to the outside: the event is recorded, the answer is the
    service's, given the trace before the call. *)
Definition ask {A} (ev : event) (answer : trace -> outcome A) : M A :=
  fun tr => (answer tr, tr ++ [ev]).

(** [print(x)] and [print(x, end="")] *)
Definition print (text : string) : M unit :=
  fun tr => (Ok tt, tr ++ [EvPrint (text +:+ single_newline)]).

Definition print_end (text : string) : M unit :=
  fun tr => (Ok tt, tr ++ [EvPrint text]).

(** [try: body  except Exception as e: handler(e)] *)
Definition try_except_Exception {A} (body : M A) (handler : exception -> M A) : M A :=
  fun tr =>
    match body tr with
    | (Ok a, tr') => (Ok a, tr')
    | (Raise e, tr') =>
        if isinstance_Exception (exc_cls e) then handler e tr' else (Raise e, tr')
    end.

(** [xs[i]] *)
Definition getitem {A} (xs : list A) (i : nat) : M A :=
  match xs !! i with
  | Some x => ret x
  | None => raise (Exc IndexError "list index out of range")
  end.

(** [d[key]].  The [KeyError] is recorded with the key (Python shows the
    key quoted; no cell prints this exception). *)
Definition dict_getitem {V} (d : gmap string V) (key : string) : M V :=
  match d !! key with
  | Some v => ret v
  | None => raise (Exc KeyError key)
  end.

(** [for x in xs: body(x)] *)
Fixpoint for_each {A} (xs : list A) (body : A -> M unit) : M unit :=
  match xs with
  | [] => ret tt
  | x :: rest => body x ;; for_each rest body
  end.

(** [for x in gen: body(x)] over a generator that may raise once its
    chunks are consumed. *)
Definition for_stream (g : stream_result) (body : string -> M unit) : M unit :=
  for_each (chunks g) body ;;
  match ending g with
  | Some e => raise e
  | None => ret tt
  end.

(* ===================================================================== *)
(** ** The expression language of the orchestration library *)
(* ===================================================================== *)

(** The second argument of [batch]: [{"max_concurrency": n}]. *)
Record RunnableConfig := { max_concurrency : option nat }.

(** A runnable has [invoke] and [batch]. *)
Record Runnable (A B : Type) := {
  invoke : A -> M B;
  batch : list A -> RunnableConfig -> M (list B)
}.
Arguments invoke {A B} r a.
Arguments batch {A B} r inputs config.

(** [batch] hands every input to a thread pool of [max_concurrency]
    workers and collects the results in the order of the inputs; the
    first exception in that order is raised.  The pool fixes the order
    of the results only, not the order in which the invocations run.

    [run_all] runs the invocations of a list one after the other and
    runs all of them, also after a failure. *)
Fixpoint run_all {A B} (f : A -> M B) (inputs : list A) (tr : trace)
  : list (outcome B) * trace :=
  match inputs with
  | [] => ([], tr)
  | a :: rest =>
      let (o, tr') := f a tr in
      let (os, tr'') := run_all f rest tr' in
      (o :: os, tr'')
  end.

Fixpoint collect {B} (os : list (outcome B)) : outcome (list B) :=
  match os with
  | [] => Ok []
  | Ok b :: rest =>
      match collect rest with
      | Ok bs => Ok (b :: bs)
      | Raise e => Raise e
      end
  | Raise e :: _ => Raise e
  end.

(** The batch of a step in the order of the inputs.  The order in which
    the invocations run, and whether they all run after a failure,
    cannot be observed for a step that makes no outside call, such as a
    prompt or a parser. *)
Definition default_batch {A B} (f : A -> M B) (inputs : list A) : M (list B) :=
  fun tr => let (os, tr') := run_all f inputs tr in (collect os, tr').

(** A runnable made of one function ([RunnableLambda], a prompt, a
    retriever, a parser).  The notebooks batch no such step but the
    prompt and the parser. *)
Definition leaf {A B} (f : A -> M B) : Runnable A B :=
  {| invoke := f; batch := fun inputs _ => default_batch f inputs |}.

(** The order in which a pool starts [fuel] pending invocations, given
    by their positions in the batch: at each step the pool takes one of
    the pending positions, the one its choice points at (modulo the
    number of pending positions), until none is left. *)
Fixpoint schedule (choose : nat -> nat) (fuel : nat) (pending : list nat) : list nat :=
  match fuel with
  | 0 => []
  | S fuel' =>
      match pending !! (choose fuel' `mod` length pending) with
      | Some i =>
          i :: schedule choose fuel' (delete (choose fuel' `mod` length pending) pending)
      | None => []
      end
  end.

(** The outcome of the invocation at position [i] among the completed
    ones, each recorded with its position. *)
Fixpoint result_of {B} (done : list (nat * outcome B)) (i : nat) : option (outcome B) :=
  match done with
  | [] => None
  | (j, o) :: rest => if Nat.eqb i j then Some o else result_of rest i
  end.

Definition raised {B} (done : list (nat * outcome B)) (i : nat) : bool :=
  match result_of done i with
  | Some (Raise _) => true
  | _ => false
  end.

Definition completed_at {B} (done : list (nat * outcome B)) (i : nat) : bool :=
  match result_of done i with
  | Some _ => true
  | None => false
  end.

(** The results are read in the order of the inputs; at the first one
    that is an exception the invocations not yet started are cancelled.
    So the invocation at position [i] can be cancelled once an earlier
    position has raised and all positions before that one have
    completed. *)
Definition abandoned {B} (done : list (nat * outcome B)) (i : nat) : bool :=
  existsb (fun j => raised done j && forallb (completed_at done) (seq 0 j)) (seq 0 i).

(** The pool at work on the positions [order]: an invocation that can be
    cancelled is left out when the pool cancels it in time ([cancels]),
    and runs otherwise. *)
Fixpoint run_pool {A B} (cancels : nat -> bool) (f : A -> M B) (inputs : list A)
    (order : list nat) (done : list (nat * outcome B)) (tr : trace)
  : list (nat * outcome B) * trace :=
  match order with
  | [] => (done, tr)
  | i :: rest =>
      match inputs !! i with
      | Some a =>
          if abandoned done i && cancels i
          then run_pool cancels f inputs rest done tr
          else
            let (o, tr') := f a tr in
            run_pool cancels f inputs rest (done ++ [(i, o)]) tr'
      | None => run_pool cancels f inputs rest done tr
      end
  end.

(** The batch of a step that calls outside: the pool starts the
    invocations in the order it chooses; the results are collected in
    the order of the inputs.  (A batch of one input runs without the
    pool, which makes no difference here: with one position nothing can
    be cancelled.) *)
Definition pool_batch {A B} (choose : nat -> nat) (cancels : nat -> bool)
    (f : A -> M B) (inputs : list A) : M (list B) :=
  fun tr =>
    let order := schedule choose (length inputs) (seq 0 (length inputs)) in
    let (done, tr') := run_pool cancels f inputs order [] tr in
    (collect (omap (result_of done) (seq 0 (length inputs))), tr').

(** A runnable made of one function that calls outside (a model), with
    the pool its batch runs in.  The limit [max_concurrency] of the
    configuration bounds how many invocations are in flight at once,
    which a trace of whole calls does not show: it changes neither the
    calls that can be made nor the results. *)
Definition pooled {A B} (choose : trace -> nat -> nat) (cancels : trace -> nat -> bool)
    (f : A -> M B) : Runnable A B :=
  {| invoke := f;
     batch := fun inputs _ => fun tr => pool_batch (choose tr) (cancels tr) f inputs tr |}.

(** [first | second]: a sequence invokes its steps one after the other,
    and batches step by step: the whole batch goes through [first], then
    the results go through [second]. *)
Definition pipe {A B C} (first : Runnable A B) (second : Runnable B C) : Runnable A C :=
  {| invoke := fun a => bind (invoke first a) (invoke second);
     batch := fun inputs config =>
       bind (batch first inputs config) (fun mids => batch second mids config) |}.

Notation "f |> g" := (pipe f g) (at level 50, left associativity).

(** [{key: step}] coerced to a runnable: the step's result under [key]. *)
Definition parallel1 {A B} (key : string) (step : Runnable A B)
  : Runnable A (gmap string B) :=
  leaf (fun a => b <- invoke step a ;; ret ({[ key := b ]} : gmap string B)).

(** *** Prompt templates *)

Inductive piece :=
| Lit (text : string)
| Slot (name : string).

Definition flush (lit : string) : list piece :=
  match lit with
  | EmptyString => []
  | _ => [Lit lit]
  end.

(** Templates in the f-string format: [{name}] is a slot.  The parser
    covers the templates of the notebooks: it does not unescape doubled
    braces, and it does not check the names of the slots (the library
    refuses a template with a slot named [stop], and cannot fill one
    named [self]). *)
Fixpoint parse_template (src lit : string) (slot : option string) : list piece :=
  match src with
  | EmptyString =>
      match slot with
      | None => flush lit
      | Some name => flush (lit +:+ "{" +:+ name)
      end
  | String c rest =>
      match slot with
      | None =>
          if Ascii.eqb c "{"%char
          then flush lit ++ parse_template rest EmptyString (Some EmptyString)
          else parse_template rest (lit +:+ String c EmptyString) None
      | Some name =>
          if Ascii.eqb c "}"%char
          then Slot name :: parse_template rest EmptyString None
          else parse_template rest lit (Some (name +:+ String c EmptyString))
      end
  end.

Definition from_template (src : string) : list piece :=
  parse_template src EmptyString None.

(** Formatting: a slot is filled with the value of its variable. *)
Fixpoint format (tpl : list piece) (vars : gmap string string) : M string :=
  match tpl with
  | [] => ret EmptyString
  | Lit text :: rest => tail <- format rest vars ;; ret (text +:+ tail)
  | Slot name :: rest =>
      v <- dict_getitem vars name ;;
      tail <- format rest vars ;;
      ret (v +:+ tail)
  end.

Inductive role := system | human.

Definition ChatPromptTemplate := list (role * list piece).

(** [ChatPromptTemplate.from_messages] *)
Definition from_messages (msgs : list (role * string)) : ChatPromptTemplate :=
  (fun m => (fst m, from_template (snd m))) <$> msgs.

Definition make_message (r : role) (content : string) : message :=
  match r with
  | system => SystemMessage content
  | human => HumanMessage content
  end.

Fixpoint format_messages (tpl : ChatPromptTemplate) (vars : gmap string string)
  : M (list message) :=
  match tpl with
  | [] => ret []
  | (r, t) :: rest =>
      content <- format t vars ;;
      tail <- format_messages rest vars ;;
      ret (make_message r content :: tail)
  end.

(** [StrOutputParser()] on the text of an LLM. *)
Definition StrOutputParser : Runnable string string := leaf ret.

(* ===================================================================== *)
(** ** Notebook: RunPod LLM *)
(* ===================================================================== *)

Module RunPodNotebook.

(** [llm = RunPod(model_kwargs={...})]: the polling options are left at
    their defaults (they appear in a comment only).  [invoke] and
    [ainvoke] return the generated text or raise. *)
Definition llm (sv : Services) (m : runpod_method) : Runnable string string :=
  leaf (fun prompt => ask (EvRunPod m prompt) (fun tr => runpod_generate sv tr m prompt)).

(** [llm.stream(prompt)] and [llm.astream(prompt)]: a generator. *)
Definition llm_stream (sv : Services) (m : runpod_method) (prompt : string)
  : M stream_result :=
  fun tr => (Ok (runpod_stream sv tr m prompt), tr ++ [EvRunPod m prompt]).

Definition prompt : string := "Write a tagline for an ice cream shop on the moon.".

(** The message printed by each handler, as a function of [str(e)]. *)
Definition invoke_error (e : string) : string :=
  "Error invoking LLM: " +:+ e +:+
  ". Ensure endpoint ID/API key are correct and endpoint is active/compatible.".

Definition stream_error (e : string) : string :=
  String nl "Error streaming LLM: " +:+ e +:+
  ". Ensure endpoint handler supports streaming output format.".

Definition ainvoke_error (e : string) : string :=
  "Error invoking LLM asynchronously: " +:+ e +:+ ".".

Definition astream_error (e : string) : string :=
  String nl "Error streaming LLM asynchronously: " +:+ e +:+
  ". Ensure endpoint handler supports streaming output format.".

(** Cell "Invoke (Sync)". *)
Definition cell_invoke (sv : Services) : M unit :=
  try_except_Exception
    (response <- invoke (llm sv m_invoke) prompt ;;
     print "--- Sync Invoke Response ---" ;;
     print response)
    (fun e => print (invoke_error (exc_str e))).

(** Cell "Stream (Sync, simulated via polling /stream)". *)
Definition cell_stream (sv : Services) : M unit :=
  print (String nl "--- Sync Stream Response ---") ;;
  try_except_Exception
    (g <- llm_stream sv m_stream prompt ;;
     for_stream g print_end ;;
     print EmptyString)
    (fun e => print (stream_error (exc_str e))).

(** Cell "AInvoke (Async)": the cell awaits the call before going on. *)
Definition cell_ainvoke (sv : Services) : M unit :=
  try_except_Exception
    (async_response <- invoke (llm sv m_ainvoke) prompt ;;
     print "--- Async Invoke Response ---" ;;
     print async_response)
    (fun e => print (ainvoke_error (exc_str e))).

(** Cell "AStream (Async)". *)
Definition cell_astream (sv : Services) : M unit :=
  print (String nl "--- Async Stream Response ---") ;;
  try_except_Exception
    (g <- llm_stream sv m_astream prompt ;;
     for_stream g print_end ;;
     print EmptyString)
    (fun e => print (astream_error (exc_str e))).

(** The guarded call of each of the four cells, by method. *)
Definition cell (sv : Services) (m : runpod_method) : M unit :=
  match m with
  | m_invoke => cell_invoke sv
  | m_stream => cell_stream sv
  | m_ainvoke => cell_ainvoke sv
  | m_astream => cell_astream sv
  end.

Definition error_message (m : runpod_method) (e : string) : string :=
  match m with
  | m_invoke => invoke_error e
  | m_stream => stream_error e
  | m_ainvoke => ainvoke_error e
  | m_astream => astream_error e
  end.

(** Cell "Chaining": [chain = prompt_template | llm | parser]. *)
Definition prompt_template : Runnable (gmap string string) string :=
  leaf (format (from_template "Tell me a joke about {topic}")).

Definition chain (sv : Services) (m : runpod_method) : Runnable (gmap string string) string :=
  prompt_template |> llm sv m |> StrOutputParser.

Definition cell_chain (sv : Services) : M unit :=
  try_except_Exception
    (chain_response <- invoke (chain sv m_invoke) {[ "topic" := "bears" ]} ;;
     print "--- Chain Response ---" ;;
     print chain_response)
    (fun e => print ("Error running chain: " +:+ exc_str e)) ;;
  try_except_Exception
    (async_chain_response <- invoke (chain sv m_ainvoke) {[ "topic" := "robots" ]} ;;
     print "--- Async Chain Response ---" ;;
     print async_chain_response)
    (fun e => print ("Error running async chain: " +:+ exc_str e)).

(** What the endpoint did when it was called: the exception it raised,
    if any (for a stream, after its chunks). *)
Definition underlying_raises (sv : Services) (m : runpod_method) (tr : trace)
  : option exception :=
  match m with
  | m_invoke | m_ainvoke =>
      match runpod_generate sv tr m prompt with
      | Ok _ => None
      | Raise e => Some e
      end
  | m_stream | m_astream => ending (runpod_stream sv tr m prompt)
  end.

(** What the cell prints before it enters its [try] block. *)
Definition header (m : runpod_method) : list event :=
  match m with
  | m_invoke | m_ainvoke => []
  | m_stream =>
      [EvPrint (String nl "--- Sync Stream Response ---" +:+ single_newline)]
  | m_astream =>
      [EvPrint (String nl "--- Async Stream Response ---" +:+ single_newline)]
  end.

(** The chunks a stream cell prints before the generator ends. *)
Definition streamed (sv : Services) (m : runpod_method) (tr : trace) : list string :=
  match m with
  | m_invoke | m_ainvoke => []
  | m_stream | m_astream => chunks (runpod_stream sv tr m prompt)
  end.

(** The calls that reached the endpoint, in order. *)
Definition endpoint_calls (tr : trace) : list (runpod_method * string) :=
  omap (fun ev => match ev with EvRunPod m p => Some (m, p) | _ => None end) tr.

End RunPodNotebook.

(* ===================================================================== *)
(** ** Notebook: how to handle long text when doing extraction *)
(* ===================================================================== *)

Module LongText.

(** *** Set up *)

Definition car_url : string := "https://en.wikipedia.org/wiki/Car".

(** Download the page, write it to a file, load it with the HTML loader,
    keep the first document, replace consecutive new lines. *)
Definition set_up (sv : Services) : M Document :=
  response_text <- ask (EvHttpGet car_url) (fun tr => http_get sv tr car_url) ;;
  ask (EvWriteFile "car.html" response_text)
      (fun tr => write_file sv tr "car.html" response_text) ;;
  docs <- ask (EvLoadHtml "car.html") (fun tr => bs_html_load sv tr "car.html") ;;
  document <- getitem docs 0 ;;
  ret (set_page_content document (clean_up (page_content document))).

(** *** Schema and prompt *)

Definition system_text : string :=
  "You are an expert at identifying key historic development in text. " +:+
  "Only extract important historic developments. Extract nothing if no important information can be found in the text.".

Definition prompt : ChatPromptTemplate :=
  from_messages [ (system, system_text); (human, "{text}") ].

(** *** The extractor: [prompt | llm.with_structured_output(...)] *)

(** The chat model bound to the schema: one call per invocation; in a
    batch the calls run in the thread pool. *)
Definition llm (sv : Services) : Runnable (list message) AIMessage :=
  pooled (pool_order sv) (pool_cancels sv)
         (fun msgs => ask (EvChat msgs) (fun tr => chat_model sv tr msgs)).

(** [llm.with_structured_output(schema=ExtractionData, include_raw=False)]:
    the bound model, then the parser of its answer.  The result is
    [None] when the answer has no tool call. *)
Definition with_structured_output (sv : Services)
  : Runnable (list message) (option ExtractionData) :=
  llm sv |> leaf (fun answer => of_outcome (tools_parser sv answer)).

Definition extractor (sv : Services) : Runnable (gmap string string) (option ExtractionData) :=
  leaf (format_messages prompt) |> with_structured_output sv.

(** *** Brute force approach *)

(** [TokenTextSplitter(chunk_size=2000, chunk_overlap=20).split_text] *)
Definition text_splitter (sv : Services) (content : string) : list string :=
  split_text sv 2000 20 content.

(** [texts[:3]] *)
Definition first_few (texts : list string) : list string := take 3 texts.

(** [[{"text": text} for text in first_few]] *)
Definition batch_inputs (texts : list string) : list (gmap string string) :=
  (fun text => ({[ "text" := text ]} : gmap string string)) <$> first_few texts.

Definition batch_config : RunnableConfig := {| max_concurrency := Some 5 |}.

Definition extractions (sv : Services) (texts : list string)
  : M (list (option ExtractionData)) :=
  batch (extractor sv) (batch_inputs texts) batch_config.

Definition brute_force (sv : Services) (document : Document)
  : M (list (option ExtractionData)) :=
  extractions sv (text_splitter sv (page_content document)).

(** *** Merge results *)

(** [key_developments = []]
    [for extraction in extractions:]
    [    key_developments.extend(extraction.key_developments)] *)
Definition merge (extractions : list ExtractionData) : list KeyDevelopment :=
  fold_left (fun acc extraction => acc ++ key_developments extraction) extractions [].

(** *** RAG based approach *)

Record vectorstore := { indexed_texts : list string }.

(** [FAISS.from_texts(texts, embedding=OpenAIEmbeddings())] *)
Definition from_texts (sv : Services) (texts : list string) : M vectorstore :=
  ask (EvIndexTexts texts) (fun tr => faiss_from_texts sv tr texts) ;;
  ret {| indexed_texts := texts |}.

(** [vectorstore.as_retriever(search_kwargs={"k": k})] *)
Definition as_retriever (sv : Services) (vs : vectorstore) (k : nat)
  : Runnable string (list Document) :=
  leaf (fun query =>
          ask (EvSimilaritySearch (indexed_texts vs) query k)
              (fun tr => similarity_search sv tr (indexed_texts vs) query k)).

Definition retriever (sv : Services) (vs : vectorstore) : Runnable string (list Document) :=
  as_retriever sv vs 1.

(** [{"text": retriever | (lambda docs: docs[0].page_content)} | extractor] *)
Definition rag_extractor (sv : Services) (vs : vectorstore)
  : Runnable string (option ExtractionData) :=
  parallel1 "text"
    (retriever sv vs |> leaf (fun docs => d <- getitem docs 0 ;; ret (page_content d)))
  |> extractor sv.

(** The messages the chat model receives for a text in the [{text}]
    slot. *)
Definition extraction_messages (text : string) : list message :=
  [SystemMessage system_text; HumanMessage text].

(** The requests that reached the chat model, in order. *)
Definition chat_requests (tr : trace) : list (list message) :=
  omap (fun ev => match ev with EvChat msgs => Some msgs | _ => None end) tr.

End LongText.

(* ===================================================================== *)
(** ** Definitions used by the statements *)
(* ===================================================================== *)

(** *** Newlines *)

Fixpoint leading_newlines (s : string) : nat :=
  match s with
  | String c s' => if Ascii.eqb c nl then S (leading_newlines s') else 0
  | EmptyString => 0
  end.

Fixpoint string_drop (k : nat) (s : string) : string :=
  match k, s with
  | S k', String _ s' => string_drop k' s'
  | _, _ => s
  end.

Definition starts_with_newline (s : string) : bool :=
  match s with
  | String c _ => Ascii.eqb c nl
  | EmptyString => false
  end.

(** No newline of [s] is followed by a newline. *)
Fixpoint blank_free (s : string) : bool :=
  match s with
  | String c s' => negb (Ascii.eqb c nl && starts_with_newline s') && blank_free s'
  | EmptyString => true
  end.

(** The scan of [clean_up], with its pattern compiled. *)
Definition normalize (s : string) : string :=
  Re.sub_scan [Re.One nl; Re.Many nl] single_newline 0 s.

(** *** Positions in the merged list *)

(** Where the [i]-th list starts in a concatenation: the number of
    elements of the lists before it. *)
Definition start {A} (ls : list (list A)) (i : nat) : nat :=
  length (concat (take i ls)).

(** Where the elements of extraction [i] start in the merged list. *)
Definition offset (extractions : list ExtractionData) (i : nat) : nat :=
  start (key_developments <$> extractions) i.

(** *** Canned services, for running the cells on concrete inputs *)

Definition doc_of (text : string) : Document :=
  {| page_content := text; metadata := ∅ |}.

(** Services that always answer: the splitter returns [pieces] whatever
    the text, the index answers a query with the first [k] documents of
    [hits query], the chat model extracts nothing, and the endpoint
    answers [generated] and streams [streamed]. *)
Definition canned (pieces : list string) (hits : string -> list Document)
    (generated : outcome string) (streamed : stream_result) : Services :=
  {| http_get := fun _ _ => Ok "<html>car</html>";
     write_file := fun _ _ _ => Ok tt;
     bs_html_load := fun _ _ => Ok (doc_of <$> pieces);
     split_text := fun _ _ _ => pieces;
     faiss_from_texts := fun _ _ => Ok tt;
     similarity_search := fun _ _ query k => Ok (take k (hits query));
     chat_model := fun _ _ =>
       Ok {| content := EmptyString;
             tool_calls := [{| tool_name := "ExtractionData";
                               tool_args := "{'key_developments': []}" |}] |};
     validate_tool_call := fun _ => Ok {| key_developments := [] |};
     pool_order := fun _ _ => 0;
     pool_cancels := fun _ _ => false;
     runpod_generate := fun _ _ _ => generated;
     runpod_stream := fun _ _ _ => streamed |}.

Definition four_chunks : list string := ["a"; "b"; "c"; "d"].

Definition no_stream : stream_result := {| chunks := []; ending := None |}.

(** A splitter that cuts the document in four. *)
Definition four_chunk_services : Services :=
  canned four_chunks (fun _ => []) (Ok "") no_stream.

(** An index that knows one chunk about cars and nothing else. *)
Definition car_hits (query : string) : list Document :=
  if String.eqb query "boats" then []
  else [doc_of "Carl Benz patented his Motorwagen in 1886."; doc_of "other"].

Definition car_services : Services :=
  canned ["Carl Benz patented his Motorwagen in 1886."] car_hits (Ok "") no_stream.

(** An endpoint that is interrupted from the keyboard. *)
Definition interrupted_services : Services :=
  canned [] (fun _ => []) (Raise (Exc KeyboardInterrupt "")) no_stream.

(** An endpoint that refuses the connection, also after two chunks. *)
Definition refused : exception := Exc ConnectionError "endpoint not found".

Definition refusing_services : Services :=
  canned [] (fun _ => []) (Raise refused)
         {| chunks := ["Moon"; "scoops"]; ending := Some refused |}.

Definition benz : KeyDevelopment :=
  {| year := 1886;
     description := "Carl Benz patented his Benz Patent-Motorwagen.";
     evidence := "The modern car was invented in 1886." |}.

Definition cugnot : KeyDevelopment :=
  {| year := 1769;
     description := "Cugnot built the first steam-powered road vehicle.";
     evidence := "Nicolas-Joseph Cugnot built the first steam-powered road vehicle in 1769." |}.

Definition corolla : KeyDevelopment :=
  {| year := 1966;
     description := "The Toyota Corolla began production.";
     evidence := "The Toyota Corolla has been in production since 1966." |}.

(** *** Answers and traces of the runs *)

(** What a guarded RunPod cell adds to the trace when the endpoint raises
    [e] and the handler runs: the header, the one call, the chunks
    printed so far, the handler's message. *)
Definition handled (sv : Services) (m : runpod_method) (tr : trace) (e : exception)
  : list event :=
  RunPodNotebook.header m ++
  [EvRunPod m RunPodNotebook.prompt] ++
  (EvPrint <$> RunPodNotebook.streamed sv m (tr ++ RunPodNotebook.header m)) ++
  [EvPrint (RunPodNotebook.error_message m (exc_str e) +:+ single_newline)].

(** [needle in haystack] on strings. *)
Definition contains (haystack needle : string) : Prop :=
  exists pre post, haystack = pre +:+ needle +:+ post.

(** The index of the canned car services. *)
Definition car_index : LongText.vectorstore :=
  {| LongText.indexed_texts := ["Carl Benz patented his Motorwagen in 1886."] |}.

(* ===================================================================== *)
(** ** The other cells of the notebooks *)
(* ===================================================================== *)

(** *** RunPod notebook: the environment cell *)

Module RunPodSetup.

(** A question put to the user: [getpass.getpass(text)] or
    [input(text)]. *)
Inductive question :=
| Getpass (text : string)
| Input (text : string).

(** A null byte in a string. *)
Fixpoint has_nul (s : string) : bool :=
  match s with
  | EmptyString => false
  | String c s' => Ascii.eqb c Ascii.zero || has_nul s'
  end.

(** [if key not in os.environ: os.environ[key] = <answer to q>]
    on the pair of [os.environ] and the questions asked so far.  The
    question may raise instead of returning what was typed (end of
    input, an interrupt), and the assignment raises [ValueError] for a
    value with a null byte; in both cases the variable stays unset.
    (The two keys of the cell are valid names.) *)
Definition ensure (key : string) (q : question) (answer : outcome string)
    (st : gmap string string * list question)
  : outcome unit * (gmap string string * list question) :=
  match fst st !! key with
  | Some _ => (Ok tt, st)
  | None =>
      match answer with
      | Raise e => (Raise e, (fst st, snd st ++ [q]))
      | Ok value =>
          if has_nul value
          then (Raise (Exc ValueError "embedded null byte"), (fst st, snd st ++ [q]))
          else (Ok tt, (<[key := value]> (fst st), snd st ++ [q]))
      end
  end.

(** The cell, for a user whose answers would be [api_key] and
    [endpoint_id]. *)
Definition env_cell (api_key endpoint_id : outcome string) (environ : gmap string string)
  : outcome unit * (gmap string string * list question) :=
  match ensure "RUNPOD_API_KEY" (Getpass "Enter your RunPod API Key: ") api_key
               (environ, []) with
  | (Ok _, st) =>
      ensure "RUNPOD_ENDPOINT_ID" (Input "Enter your RunPod Endpoint ID: ") endpoint_id st
  | (Raise e, st) => (Raise e, st)
  end.

End RunPodSetup.

(** The proof step for the cases of the environment cell: the goals
    are lookups in the environment after zero, one or two assignments;
    [again] is the fact used for a second run of the cell. *)
Ltac env_solve again :=
  repeat split; intros;
  repeat match goal with
         | H : _ /\ _ |- _ => destruct H
         | H : Ok _ = Raise _ |- _ => discriminate H
         | H : Raise _ = Ok _ |- _ => discriminate H
         | H : Some _ = None |- _ => discriminate H
         | H : None = Some _ |- _ => discriminate H
         | H : Raise _ = Raise _ |- _ => injection H as <-
         end;
  rewrite ?lookup_insert_eq, ?lookup_insert_ne in * by congruence;
  try congruence; eauto;
  try (apply again;
       repeat (rewrite lookup_insert_eq || rewrite lookup_insert_ne by congruence);
       eauto);
  try solve [left; eauto 7 | right; eauto 7].


(** *** Google Drive notebook: printing the agent's events *)

Module GoogleDrive.

(** [xs[-1]] *)
Definition getitem_last {A} (xs : list A) : M A :=
  match last xs with
  | Some x => ret x
  | None => raise (Exc IndexError "list index out of range")
  end.

(** [for event in events: event["messages"][-1].pretty_print()], where
    the generator [events] yields the given states and then is exhausted
    or raises; [pretty] is the text [pretty_print] prints for a
    message. *)
Definition print_events {Msg} (pretty : Msg -> string)
    (events : list (gmap string (list Msg))) (ending : option exception) : M unit :=
  for_each events
    (fun event =>
       messages <- dict_getitem event "messages" ;;
       m <- getitem_last messages ;;
       print (pretty m)) ;;
  match ending with
  | Some e => raise e
  | None => ret tt
  end.

(** An event whose ["messages"] list ends with [m]. *)
Definition ends_with {Msg} (event : gmap string (list Msg)) (m : Msg) : Prop :=
  exists msgs, event !! "messages" = Some msgs /\ last msgs = Some m.

(** The line [pretty_print] writes for each message. *)
Definition pretty_lines {Msg} (pretty : Msg -> string) (ms : list Msg) : list event :=
  EvPrint <$> ((fun m => pretty m +:+ single_newline) <$> ms).

End GoogleDrive.

(** *** Long-text notebook: the cells around the extractors *)

Module LongTextCells.

Import LongText.

(** The merge loop on what the batch returned: an extraction that is
    [None] has no attribute [key_developments]. *)
Fixpoint extend_all (key_developments_so_far : list KeyDevelopment)
    (extractions : list (option ExtractionData)) : M (list KeyDevelopment) :=
  match extractions with
  | [] => ret key_developments_so_far
  | Some extraction :: rest =>
      extend_all (key_developments_so_far ++ key_developments extraction) rest
  | None :: _ =>
      raise (Exc (OtherException "AttributeError")
                 "'NoneType' object has no attribute 'key_developments'")
  end.

Definition merge_cell (extractions : list (option ExtractionData)) : M (list KeyDevelopment) :=
  extend_all [] extractions.

(** The brute-force cells together: batch, then merge. *)
Definition brute_force_merged (sv : Services) (document : Document)
  : M (list KeyDevelopment) :=
  extractions <- brute_force sv document ;;
  merge_cell extractions.

(** [texts = text_splitter.split_text(document.page_content)]
    [vectorstore = FAISS.from_texts(texts, embedding=OpenAIEmbeddings())] *)
Definition rag_set_up (sv : Services) (document : Document) : M vectorstore :=
  from_texts sv (text_splitter sv (page_content document)).

Definition rag_query : string := "Key developments associated with cars".

(** [results = rag_extractor.invoke("Key developments associated with cars")] *)
Definition results (sv : Services) (vs : vectorstore) : M (option ExtractionData) :=
  invoke (rag_extractor sv vs) rag_query.

(** The RAG cells together. *)
Definition rag_approach (sv : Services) (document : Document) : M (option ExtractionData) :=
  vs <- rag_set_up sv document ;;
  results sv vs.

End LongTextCells.

(** *** Definitions used by the statements on these cells *)

(** [s.split("\n")] *)
Fixpoint split_lines (s : string) : list string :=
  match s with
  | EmptyString => [EmptyString]
  | String c s' =>
      if Ascii.eqb c nl then EmptyString :: split_lines s'
      else match split_lines s' with
           | line :: rest => String c line :: rest
           | [] => [String c EmptyString]
           end
  end.

Definition first_line (s : string) : string := hd EmptyString (split_lines s).

Definition rest_lines (s : string) : list string := tl (split_lines s).

Definition nonempty (line : string) : bool :=
  match line with
  | EmptyString => false
  | _ => true
  end.

(** The lines of a text that are not empty, in order. *)
Definition text_lines (s : string) : list string :=
  List.filter nonempty (split_lines s).

(** No brace in a text. *)
Fixpoint brace_free (s : string) : bool :=
  match s with
  | EmptyString => true
  | String c s' =>
      negb (Ascii.eqb c "{"%char) && negb (Ascii.eqb c "}"%char) && brace_free s'
  end.




(** How often [x] occurs in a list of key developments. *)
Fixpoint occurrences (x : KeyDevelopment) (l : list KeyDevelopment) : nat :=
  match l with
  | [] => 0
  | y :: l' =>
      (if Z.eqb (year x) (year y) && String.eqb (description x) (description y)
          && String.eqb (evidence x) (evidence y)
       then 1 else 0) + occurrences x l'
  end.

(** What a guarded RunPod cell adds to the trace when the endpoint
    answers: the header, the one call, and the answer printed (the title
    and the text, or the chunks and a newline). *)
Definition completed (sv : Services) (m : runpod_method) (tr : trace) : list event :=
  RunPodNotebook.header m ++
  [EvRunPod m RunPodNotebook.prompt] ++
  match m with
  | m_invoke =>
      match runpod_generate sv tr m RunPodNotebook.prompt with
      | Ok text => [EvPrint ("--- Sync Invoke Response ---" +:+ single_newline);
                    EvPrint (text +:+ single_newline)]
      | Raise _ => []
      end
  | m_ainvoke =>
      match runpod_generate sv tr m RunPodNotebook.prompt with
      | Ok text => [EvPrint ("--- Async Invoke Response ---" +:+ single_newline);
                    EvPrint (text +:+ single_newline)]
      | Raise _ => []
      end
  | m_stream | m_astream =>
      (EvPrint <$> chunks (runpod_stream sv (tr ++ RunPodNotebook.header m) m
                                         RunPodNotebook.prompt)) ++
      [EvPrint single_newline]
  end.

(** One guarded block of the chaining cell. *)
Definition guarded_chain (sv : Services) (m : runpod_method) (topic title failure : string)
  : M unit :=
  try_except_Exception
    (chain_response <- invoke (RunPodNotebook.chain sv m) {[ "topic" := topic ]} ;;
     print title ;;
     print chain_response)
    (fun e => print (failure +:+ exc_str e)).

(** A page with blank lines. *)
Definition blank_page : string :=
  "Car" +:+ String nl (String nl (String nl ("History" +:+ String nl (String nl "1886")))).

Definition blank_page_services : Services :=
  canned [blank_page] (fun _ => []) (Ok EmptyString) no_stream.

(** The same page after the clean-up. *)
Definition cleaned_page : string :=
  "Car" +:+ String nl ("History" +:+ String nl "1886").

(** Services that fail at one step of the set up: the download, the
    write, or neither. *)
Definition offline : exception := Exc ConnectionError "no route to host".

Definition read_only : exception := Exc (OtherException "PermissionError") "car.html".

Definition set_up_services (download : outcome string) (written : outcome unit) : Services :=
  {| http_get := fun _ _ => download;
     write_file := fun _ _ _ => written;
     bs_html_load := fun _ _ => Ok [doc_of "car"];
     split_text := fun _ _ _ => [];
     faiss_from_texts := fun _ _ => Ok tt;
     similarity_search := fun _ _ _ _ => Ok [];
     chat_model := fun _ _ =>
       Ok {| content := EmptyString;
             tool_calls := [{| tool_name := "ExtractionData";
                               tool_args := "{'key_developments': []}" |}] |};
     validate_tool_call := fun _ => Ok {| key_developments := [] |};
     pool_order := fun _ _ => 0;
     pool_cancels := fun _ _ => false;
     runpod_generate := fun _ _ _ => Ok "";
     runpod_stream := fun _ _ _ => no_stream |}.

(** An endpoint that answers. *)
Definition answering_services : Services :=
  canned [] (fun _ => []) (Ok "Scoops in low gravity.")
         {| chunks := ["Scoops "; "in low gravity."]; ending := None |}.

(** A chat model that fails on the second chunk and answers the third
    without a tool call, behind a pool that starts with the last
    invocation. *)
Definition rate_limited : exception := Exc (OtherException "RateLimitError") "429".

Definition failing_chat_services : Services :=
  {| http_get := fun _ _ => Ok "";
     write_file := fun _ _ _ => Ok tt;
     bs_html_load := fun _ _ => Ok [];
     split_text := fun _ _ _ => four_chunks;
     faiss_from_texts := fun _ _ => Raise rate_limited;
     similarity_search := fun _ _ _ _ => Ok [];
     chat_model := fun _ msgs =>
       match msgs with
       | [_; HumanMessage "b"] => Raise rate_limited
       | [_; HumanMessage "c"] =>
           Ok {| content := "No key development here."; tool_calls := [] |}
       | _ =>
           Ok {| content := EmptyString;
                 tool_calls := [{| tool_name := "ExtractionData";
                                   tool_args := "{'key_developments': [...]}" |}] |}
       end;
     validate_tool_call := fun _ => Ok {| key_developments := [benz] |};
     pool_order := fun _ k => k;
     pool_cancels := fun _ _ => true;
     runpod_generate := fun _ _ _ => Ok "";
     runpod_stream := fun _ _ _ => no_stream |}.

(** A chat model that raises nothing and answers the second chunk
    without a tool call. *)
Definition silent_chat_services : Services :=
  {| http_get := fun _ _ => Ok EmptyString;
     write_file := fun _ _ _ => Ok tt;
     bs_html_load := fun _ _ => Ok [];
     split_text := fun _ _ _ => four_chunks;
     faiss_from_texts := fun _ _ => Ok tt;
     similarity_search := fun _ _ _ _ => Ok [];
     chat_model := fun _ msgs =>
       match msgs with
       | [_; HumanMessage "b"] =>
           Ok {| content := "No key development here."; tool_calls := [] |}
       | _ =>
           Ok {| content := EmptyString;
                 tool_calls := [{| tool_name := "ExtractionData";
                                   tool_args := "{'key_developments': [...]}" |}] |}
       end;
     validate_tool_call := fun _ => Ok {| key_developments := [benz] |};
     pool_order := fun _ k => k;
     pool_cancels := fun _ _ => true;
     runpod_generate := fun _ _ _ => Ok EmptyString;
     runpod_stream := fun _ _ _ => no_stream |}.

(** A chat model that fails on the first chunk, behind a pool that
    starts the invocations in the order of the inputs and cancels what
    it can. *)
Definition hasty_services : Services :=
  {| http_get := fun _ _ => Ok EmptyString;
     write_file := fun _ _ _ => Ok tt;
     bs_html_load := fun _ _ => Ok [];
     split_text := fun _ _ _ => four_chunks;
     faiss_from_texts := fun _ _ => Ok tt;
     similarity_search := fun _ _ _ _ => Ok [];
     chat_model := fun _ msgs =>
       match msgs with
       | [_; HumanMessage "a"] => Raise rate_limited
       | _ => Ok {| content := "No key development here."; tool_calls := [] |}
       end;
     validate_tool_call := fun _ => Ok {| key_developments := [] |};
     pool_order := fun _ _ => 0;
     pool_cancels := fun _ _ => true;
     runpod_generate := fun _ _ _ => Ok EmptyString;
     runpod_stream := fun _ _ _ => no_stream |}.

(** What the merge loop raises on an extraction that is [None]. *)
Definition no_key_developments : exception :=
  Exc (OtherException "AttributeError")
      "'NoneType' object has no attribute 'key_developments'".

(* ===================================================================== *)
(** ** The clean-up step *)
(* ===================================================================== *)

Section CleanUp.

Lemma compile_blank_lines :
  Re.compile blank_lines_pattern = [Re.One nl; Re.Many nl].
Proof. reflexivity. Qed.

Lemma clean_up_normalize s : clean_up s = normalize s.
Proof. reflexivity. Qed.

(** After the first newline of a match, the repetition takes every
    newline that follows. *)
Lemma more_newlines t :
  (fix more (t : string) : option nat :=
     match t with
     | String y t' =>
         if Ascii.eqb y nl then
           match more t' with
           | Some n => Some (S n)
           | None => Re.match_len [] t
           end
         else Re.match_len [] t
     | EmptyString => Re.match_len [] t
     end) t = Some (leading_newlines t).
Proof.
  induction t as [|z t IH]; [reflexivity|].
  cbn [leading_newlines]. destruct (Ascii.eqb z nl); [|reflexivity].
  rewrite IH. reflexivity.
Qed.

(** The pattern matches at a position exactly when two newlines start
    there, and the match is the whole run of newlines. *)
Lemma match_len_blank_lines c s :
  Re.match_len [Re.One nl; Re.Many nl] (String c s) =
  if Ascii.eqb c nl && starts_with_newline s
  then Some (S (leading_newlines s)) else None.
Proof.
  cbn [Re.match_len].
  destruct (Ascii.eqb c nl); cbn [andb]; [|reflexivity].
  destruct s as [|y t]; cbn [starts_with_newline]; [reflexivity|].
  cbn [leading_newlines].
  destruct (Ascii.eqb y nl); [|reflexivity].
  rewrite more_newlines. reflexivity.
Qed.

Lemma scan_skip k s :
  Re.sub_scan [Re.One nl; Re.Many nl] single_newline k s = normalize (string_drop k s).
Proof.
  revert s; induction k as [|k IH]; intros s.
  - destruct s; reflexivity.
  - destruct s as [|c s]; [reflexivity|]. cbn [Re.sub_scan string_drop]. apply IH.
Qed.

Lemma normalize_cons c s :
  normalize (String c s) =
  if Ascii.eqb c nl && starts_with_newline s
  then String nl (normalize (string_drop (leading_newlines s) s))
  else String c (normalize s).
Proof.
  unfold normalize at 1. cbn [Re.sub_scan].
  rewrite match_len_blank_lines.
  destruct (Ascii.eqb c nl && starts_with_newline s) eqn:E.
  - rewrite scan_skip. reflexivity.
  - reflexivity.
Qed.

Lemma drop_leading_not_newline s :
  starts_with_newline (string_drop (leading_newlines s) s) = false.
Proof.
  induction s as [|c s IH]; [reflexivity|].
  cbn [leading_newlines]. destruct (Ascii.eqb c nl) eqn:E.
  - cbn [string_drop]. exact IH.
  - cbn. exact E.
Qed.

Lemma string_drop_length k s : String.length (string_drop k s) <= String.length s.
Proof.
  revert s; induction k as [|k IH]; intros [|c s]; cbn; try lia.
  specialize (IH s). lia.
Qed.

(** The output has no blank line and starts with a newline exactly when
    the input does; by induction on a bound of the input's length, since
    the scan jumps over a whole match. *)
Lemma normalize_shape n :
  forall s, String.length s <= n ->
    blank_free (normalize s) = true /\
    starts_with_newline (normalize s) = starts_with_newline s.
Proof.
  induction n as [|n IH]; intros [|c s] Hlen; cbn in Hlen; try lia;
    try (split; reflexivity).
  rewrite normalize_cons.
  destruct (Ascii.eqb c nl && starts_with_newline s) eqn:E.
  - apply andb_true_iff in E as [Ec Es].
    destruct (IH (string_drop (leading_newlines s) s)) as [Hb Hs].
    { pose proof (string_drop_length (leading_newlines s) s). lia. }
    rewrite drop_leading_not_newline in Hs.
    split.
    + cbn [blank_free]. rewrite Hs, Hb. rewrite andb_false_r. reflexivity.
    + cbn. rewrite Ec. reflexivity.
  - destruct (IH s) as [Hb Hs]; [lia|]. split.
    + cbn [blank_free]. rewrite Hs, E, Hb. reflexivity.
    + reflexivity.
Qed.

Lemma normalize_fixed s : blank_free s = true -> normalize s = s.
Proof.
  induction s as [|c s IH]; [reflexivity|].
  cbn [blank_free]. intros H. apply andb_true_iff in H as [H1 H2].
  rewrite normalize_cons. apply negb_true_iff in H1. rewrite H1.
  now rewrite IH.
Qed.

Lemma blank_free_no_pair s :
  blank_free s = true ->
  forall pre post, s <> pre +:+ String nl (String nl post).
Proof.
  intros H pre. revert s H. induction pre as [|a pre IH]; intros s H post Heq.
  - cbn in Heq. subst s. cbn in H. discriminate.
  - cbn in Heq. subst s. cbn [blank_free] in H.
    apply andb_true_iff in H as [_ H]. eapply IH; eauto.
Qed.

Lemma clean_up_blank_free s : blank_free (clean_up s) = true.
Proof.
  rewrite clean_up_normalize.
  apply (normalize_shape (String.length s) s (le_n _)).
Qed.

(** C9. The clean-up [re.sub("\n\n+", "\n", content)] leaves no two
    consecutive newlines in its result, whatever the input, and cleaning
    a cleaned text changes nothing. *)
Theorem clean_up_idempotent_no_blank_line (content : string) :
  blank_free (clean_up content) = true /\
  (forall pre post, clean_up content <> pre +:+ String nl (String nl post)) /\
  clean_up (clean_up content) = clean_up content.
Proof.
  pose proof (clean_up_blank_free content) as Hb.
  rewrite !clean_up_normalize in *.
  split; [exact Hb|]. split.
  - apply blank_free_no_pair, Hb.
  - apply normalize_fixed, Hb.
Qed.

Example sub_backtracks : Re.sub "ab+b" "X" "zabbbbcabab" = "zXcabab".
Proof. reflexivity. Qed.

Example sub_gives_back : Re.sub "a+a" "X" "baaab" = "bXb".
Proof. reflexivity. Qed.

Example sub_empty_pattern : Re.sub "" "-" "ab" = "-a-b-".
Proof. reflexivity. Qed.

Example clean_up_example :
  clean_up (String "a" (String nl (String nl (String nl (String "b" (String nl "c"))))))
  = String "a" (String nl (String "b" (String nl "c"))).
Proof. reflexivity. Qed.

End CleanUp.

(* ===================================================================== *)
(** ** Merging the extractions *)
(* ===================================================================== *)

Section Concat.

Context {A : Type}.
Implicit Types (ls : list (list A)) (l : list A).

Lemma start_succ ls i l :
  ls !! i = Some l -> start ls (S i) = start ls i + length l.
Proof.
  unfold start. intros H.
  rewrite (take_S_r _ _ _ H), concat_app, length_app.
  cbn. rewrite app_nil_r. reflexivity.
Qed.

Lemma start_mono ls i j : i <= j -> start ls i <= start ls j.
Proof.
  unfold start. intros H.
  replace j with (i + (j - i)) by lia.
  rewrite <- take_take_drop, concat_app, length_app. lia.
Qed.

Lemma concat_lookup_at ls i l k x :
  ls !! i = Some l -> l !! k = Some x ->
  concat ls !! (start ls i + k) = Some x.
Proof.
  unfold start. intros Hi Hk.
  assert (concat ls = concat (take i ls) ++ l ++ concat (drop (S i) ls)) as ->.
  { rewrite <- (take_drop_middle ls i l Hi) at 1. now rewrite concat_app. }
  rewrite lookup_app_r by lia.
  replace (length (concat (take i ls)) + k - length (concat (take i ls))) with k by lia.
  rewrite lookup_app_l; [exact Hk|].
  apply lookup_lt_Some in Hk. exact Hk.
Qed.

Lemma concat_lookup_from ls n x :
  concat ls !! n = Some x ->
  exists i l k, ls !! i = Some l /\ l !! k = Some x /\ n = start ls i + k.
Proof.
  unfold start. revert n; induction ls as [|l ls IH]; intros n H; [discriminate|].
  cbn [concat] in H.
  destruct (decide (n < length l)) as [Hlt|Hge].
  - rewrite lookup_app_l in H by exact Hlt.
    exists 0, l, n. cbn. auto.
  - rewrite lookup_app_r in H by lia.
    destruct (IH _ H) as (i & l' & k & Hi & Hk & Hn).
    exists (S i), l', k. split; [exact Hi|]. split; [exact Hk|].
    cbn [take concat]. rewrite length_app. lia.
Qed.

Lemma start_before ls i j l k :
  i < j -> ls !! i = Some l -> k < length l -> start ls i + k < start ls j.
Proof.
  intros Hij Hi Hk.
  pose proof (start_succ ls i l Hi) as Hs.
  pose proof (start_mono ls (S i) j ltac:(lia)). lia.
Qed.

End Concat.

Section Merge.

Import LongText.

Lemma merge_from acc es :
  fold_left (fun acc e => acc ++ key_developments e) es acc
  = acc ++ concat (key_developments <$> es).
Proof.
  revert acc; induction es as [|e es IH]; intros acc; cbn.
  - now rewrite app_nil_r.
  - rewrite IH. now rewrite <- app_assoc.
Qed.

Lemma merge_concat es : merge es = concat (key_developments <$> es).
Proof. unfold merge. now rewrite merge_from. Qed.

(** C2. The merged list is the concatenation, in order, of the
    [key_developments] of the extractions: element [k] of extraction [i]
    sits at position [offset i + k], every position of the merged list is
    such a position, two different places of the extractions never share
    a position, and the elements of an earlier extraction come before
    those of a later one. *)
Theorem merge_is_in_order_concatenation (extractions : list ExtractionData) :
  merge extractions = concat (key_developments <$> extractions) /\
  length (merge extractions) = offset extractions (length extractions) /\
  (forall i e k x,
      extractions !! i = Some e -> key_developments e !! k = Some x ->
      merge extractions !! (offset extractions i + k) = Some x) /\
  (forall n x,
      merge extractions !! n = Some x ->
      exists i e k,
        extractions !! i = Some e /\ key_developments e !! k = Some x /\
        n = offset extractions i + k) /\
  (forall i j e k,
      i < j -> extractions !! i = Some e -> k < length (key_developments e) ->
      offset extractions i + k < offset extractions j).
Proof.
  rewrite merge_concat. unfold offset.
  split; [reflexivity|]. split; [|split; [|split]].
  - unfold start. rewrite <- (length_fmap key_developments extractions).
    now rewrite firstn_all.
  - intros i e k x Hi Hk.
    eapply concat_lookup_at; [|exact Hk].
    rewrite list_lookup_fmap, Hi. reflexivity.
  - intros n x H.
    destruct (concat_lookup_from _ _ _ H) as (i & l & k & Hi & Hk & Hn).
    rewrite list_lookup_fmap in Hi.
    destruct (extractions !! i) as [e|] eqn:He; [|discriminate].
    injection Hi as <-.
    exists i, e, k. auto.
  - intros i j e k Hij Hi Hk.
    eapply start_before; [exact Hij| |exact Hk].
    rewrite list_lookup_fmap, Hi. reflexivity.
Qed.

Example merge_example :
  merge [ {| key_developments := [corolla; cugnot] |};
          {| key_developments := [] |};
          {| key_developments := [benz] |} ]
  = [corolla; cugnot; benz].
Proof. reflexivity. Qed.

End Merge.

(* ===================================================================== *)
(** ** The extraction schema *)
(* ===================================================================== *)

Section Schema.

Lemma KeyDevelopment_conforms kd :
  conforms schema (TModel "KeyDevelopment") (KeyDevelopment_dict kd) = true.
Proof. reflexivity. Qed.

(** C5. [KeyDevelopment] declares exactly the three required fields
    [year : int], [description : str] and [evidence : str], and every
    record is made of exactly these; [ExtractionData] declares the one
    field [key_developments : List[KeyDevelopment]], and every value
    holds a list of such records. *)
Theorem extraction_schema_shape :
  (f_name <$> m_fields KeyDevelopment_decl = ["year"; "description"; "evidence"] /\
   f_type <$> m_fields KeyDevelopment_decl = [TInt; TStr; TStr] /\
   f_required <$> m_fields KeyDevelopment_decl = [true; true; true]) /\
  (f_name <$> m_fields ExtractionData_decl = ["key_developments"] /\
   f_type <$> m_fields ExtractionData_decl = [TList (TModel "KeyDevelopment")] /\
   f_required <$> m_fields ExtractionData_decl = [true]) /\
  (forall kd : KeyDevelopment,
      kd = {| year := year kd; description := description kd; evidence := evidence kd |} /\
      KeyDevelopment_dict kd =
        VModel "KeyDevelopment"
          [ ("year", VInt (year kd));
            ("description", VStr (description kd));
            ("evidence", VStr (evidence kd)) ] /\
      conforms schema (TModel "KeyDevelopment") (KeyDevelopment_dict kd) = true) /\
  (forall ed : ExtractionData,
      ed = {| key_developments := key_developments ed |} /\
      conforms schema (TModel "ExtractionData") (ExtractionData_dict ed) = true).
Proof.
  split; [repeat split|]. split; [repeat split|]. split.
  - intros [y d e]. repeat split.
  - intros [kds]. split; [reflexivity|].
    cbn. rewrite andb_true_r.
    induction kds as [|kd kds IH]; [reflexivity|].
    cbn [fmap list_fmap forallb]. rewrite IH.
    rewrite andb_true_r. apply KeyDevelopment_conforms.
Qed.

End Schema.

(* ===================================================================== *)
(** ** Running the cells *)
(* ===================================================================== *)

Section Runs.

Context {A B : Type}.

Lemma collect_Ok (bs : list B) : collect (Ok <$> bs) = Ok bs.
Proof.
  induction bs as [|b bs IH]; [reflexivity|].
  cbn [fmap list_fmap collect]. change (list_fmap _ _ Ok bs) with (Ok <$> bs).
  now rewrite IH.
Qed.

Lemma collect_length (os : list (outcome B)) bs :
  collect os = Ok bs -> length bs = length os.
Proof.
  revert bs; induction os as [|[b|e] os IH]; intros bs H; cbn in H.
  - now injection H as <-.
  - destruct (collect os) as [bs'|]; [|discriminate].
    injection H as <-. cbn. now rewrite (IH bs').
  - discriminate.
Qed.

Lemma collect_inv_Ok (os : list (outcome B)) bs :
  collect os = Ok bs -> os = Ok <$> bs.
Proof.
  revert bs; induction os as [|[b|e] os IH]; intros bs H; cbn in H.
  - now injection H as <-.
  - destruct (collect os) as [bs'|]; [|discriminate].
    injection H as <-. cbn. now rewrite (IH bs').
  - discriminate.
Qed.

Lemma collect_inv_Raise (os : list (outcome B)) e :
  collect os = Raise e -> Raise e ∈ os.
Proof.
  induction os as [|[b|e'] os IH]; intros H; cbn in H.
  - discriminate.
  - destruct (collect os) as [bs'|e'']; [discriminate|].
    injection H as ->. apply list_elem_of_further, IH. reflexivity.
  - injection H as ->. apply list_elem_of_here.
Qed.

(** A step that never touches the trace and always returns. *)
Lemma run_all_pure {X} (f : A -> M B) (h : X -> A) (g : X -> B) xs tr :
  (forall x tr, f (h x) tr = (Ok (g x), tr)) ->
  run_all f (h <$> xs) tr = (Ok <$> (g <$> xs), tr).
Proof.
  intros Hf. induction xs as [|x xs IH]; [reflexivity|].
  cbn [fmap list_fmap run_all]. rewrite Hf.
  change (list_fmap _ _ h xs) with (h <$> xs). now rewrite IH.
Qed.

(** A step that never touches the trace. *)
Lemma run_all_of_outcome (g : A -> outcome B) (xs : list A) tr :
  run_all (fun a => of_outcome (g a)) xs tr = (g <$> xs, tr).
Proof.
  induction xs as [|x xs IH]; [reflexivity|].
  cbn [run_all]. unfold of_outcome at 1. now rewrite IH.
Qed.

Lemma bind_run {X Y} (m : M X) (k : X -> M Y) tr :
  bind m k tr =
  match m tr with
  | (Ok a, tr') => k a tr'
  | (Raise e, tr') => (Raise e, tr')
  end.
Proof. reflexivity. Qed.

Lemma for_each_print_end (xs : list string) tr :
  for_each xs print_end tr = (Ok tt, tr ++ (EvPrint <$> xs)).
Proof.
  revert tr; induction xs as [|x xs IH]; intros tr; cbn.
  - now rewrite app_nil_r.
  - unfold bind, print_end at 1. rewrite IH, <- app_assoc. reflexivity.
Qed.

(** Whatever the pool chooses, every pending position is run once. *)
Lemma schedule_perm (choose : nat -> nat) (pending : list nat) :
  schedule choose (length pending) pending ≡ₚ pending.
Proof.
  remember (length pending) as fuel eqn:Hlen.
  revert pending Hlen; induction fuel as [|fuel IH]; intros pending Hlen.
  - destruct pending; [reflexivity|discriminate].
  - cbn [schedule].
    assert (Hlt : choose fuel `mod` length pending < length pending)
      by (apply Nat.mod_upper_bound; lia).
    destruct (lookup_lt_is_Some_2 _ _ Hlt) as [i Hi]. rewrite Hi.
    etrans; [|symmetry; apply (delete_Permutation pending _ i Hi)].
    constructor. apply IH. rewrite length_delete by eauto. lia.
Qed.

Lemma omap_lookup_shift (a : A) (inputs : list A) (l : list nat) :
  omap (fun i => (a :: inputs) !! i) (S <$> l) = omap (fun i => inputs !! i) l.
Proof.
  induction l as [|i l IH]; [reflexivity|].
  cbn [fmap list_fmap omap list_omap lookup list_lookup].
  change (list_fmap _ _ ?f ?l) with (f <$> l).
  change (list_omap _ _ ?f ?l) with (omap f l).
  now rewrite IH.
Qed.

Lemma omap_lookup_seq (inputs : list A) :
  omap (fun i => inputs !! i) (seq 0 (length inputs)) = inputs.
Proof.
  induction inputs as [|a inputs IH]; [reflexivity|].
  cbn [length seq]. rewrite <- fmap_S_seq.
  cbn [omap list_omap lookup list_lookup].
  change (list_omap _ _ ?f ?l) with (omap f l).
  now rewrite omap_lookup_shift, IH.
Qed.

End Runs.

(* ===================================================================== *)
(** ** A batch in the thread pool *)
(* ===================================================================== *)

Section Pool.

Context {A B : Type}.

(** The step of the batch: one outside call per invocation. *)
Variable ev : A -> event.
Variable g : trace -> A -> outcome B.
Variable f : A -> M B.
Hypothesis f_calls : forall a tr, f a tr = (g tr a, tr ++ [ev a]).

Variable cancels : nat -> bool.
Variable inputs : list A.

Lemma result_of_elem (done : list (nat * outcome B)) i o :
  result_of done i = Some o -> (i, o) ∈ done.
Proof.
  induction done as [|[j o'] done IH]; [discriminate|]. cbn [result_of].
  destruct (Nat.eqb i j) eqn:E.
  - apply Nat.eqb_eq in E as ->. intros H. injection H as ->. apply list_elem_of_here.
  - intros H. apply list_elem_of_further, IH, H.
Qed.

Lemma result_of_NoDup (done : list (nat * outcome B)) i o :
  NoDup (fst <$> done) -> (i, o) ∈ done -> result_of done i = Some o.
Proof.
  induction done as [|[j o'] done IH]; intros Hnd Hin; [now apply elem_of_nil in Hin|].
  cbn [fmap list_fmap fst] in Hnd. apply NoDup_cons in Hnd as [Hj Hnd].
  cbn [result_of]. apply elem_of_cons in Hin as [Hin|Hin].
  - injection Hin as -> ->. now rewrite Nat.eqb_refl.
  - destruct (Nat.eqb i j) eqn:E; [|apply IH; assumption].
    apply Nat.eqb_eq in E as ->. exfalso. apply Hj.
    change j with (fst (j, o)). apply list_elem_of_fmap_2, Hin.
Qed.

(** An invocation is cancelled only after an earlier position raised. *)
Lemma abandoned_raised (done : list (nat * outcome B)) i :
  abandoned done i = true -> exists j e, j < i /\ (j, Raise e) ∈ done.
Proof.
  unfold abandoned. intros H. apply existsb_exists in H as (j & Hj & H).
  apply in_seq in Hj. apply andb_true_iff in H as [H _]. unfold raised in H.
  destruct (result_of done j) as [[b|e]|] eqn:E; try discriminate H.
  exists j, e. split; [lia|apply result_of_elem, E].
Qed.

(** A run of the pool: the invocations it made, in the order it made
    them, each with the outcome of its call; an invocation it left out
    comes after one that raised. *)
Lemma run_pool_spec (order : list nat) (done : list (nat * outcome B)) tr :
  exists new,
    run_pool cancels f inputs order done tr
    = (done ++ new, tr ++ (ev <$> omap (fun i => inputs !! i) (fst <$> new))) /\
    fst <$> new `sublist_of` order /\
    (forall i o,
        (i, o) ∈ new ->
        exists a earlier, inputs !! i = Some a /\ o = g (tr ++ (ev <$> earlier)) a) /\
    (forall i,
        i ∈ order -> i < length inputs -> i ∉ fst <$> new ->
        exists j e, (j, Raise e) ∈ done ++ new).
Proof.
  revert done tr; induction order as [|i order IH]; intros done tr.
  - exists []. cbn. rewrite !app_nil_r. split; [reflexivity|]. split; [constructor|].
    split; [intros i o H; now apply elem_of_nil in H|].
    intros i H; now apply elem_of_nil in H.
  - cbn [run_pool]. destruct (inputs !! i) as [a|] eqn:Ha.
    + destruct (abandoned done i && cancels i) eqn:Hc.
      * destruct (IH done tr) as (new & Hrun & Hsub & Hout & Hskip).
        exists new. split; [exact Hrun|]. split; [now apply sublist_cons|].
        split; [exact Hout|].
        intros i' Hin Hlt Hnot. apply elem_of_cons in Hin as [->|Hin]; [|exact (Hskip i' Hin Hlt Hnot)].
        apply andb_true_iff in Hc as [Hc _].
        destruct (abandoned_raised done i Hc) as (j & e & _ & Hj).
        exists j, e. apply elem_of_app. now left.
      * rewrite f_calls.
        destruct (IH (done ++ [(i, g tr a)]) (tr ++ [ev a]))
          as (new & Hrun & Hsub & Hout & Hskip).
        exists ((i, g tr a) :: new). split; [|split; [|split]].
        -- rewrite Hrun. cbn [fmap list_fmap fst omap list_omap]. rewrite Ha.
           change (list_fmap _ _ ?h ?l) with (h <$> l).
           change (list_omap _ _ ?h ?l) with (omap h l).
           cbn [fmap list_fmap]. change (list_fmap _ _ ?h ?l) with (h <$> l).
           now rewrite <- !app_assoc.
        -- cbn [fmap list_fmap fst]. now apply sublist_skip.
        -- intros i' o Hin. apply elem_of_cons in Hin as [Hin|Hin].
           ++ injection Hin as -> ->. exists a, []. split; [exact Ha|].
              cbn. now rewrite app_nil_r.
           ++ destruct (Hout i' o Hin) as (a' & earlier & Ha' & ->).
              exists a', (a :: earlier). split; [exact Ha'|].
              cbn [fmap list_fmap]. now rewrite <- app_assoc.
        -- intros i' Hin Hlt Hnot. cbn [fmap list_fmap fst] in Hnot.
           apply not_elem_of_cons in Hnot as [Hne Hnot].
           apply elem_of_cons in Hin as [->|Hin]; [congruence|].
           destruct (Hskip i' Hin Hlt Hnot) as (j & e & Hj).
           exists j, e. now rewrite <- app_assoc in Hj.
    + destruct (IH done tr) as (new & Hrun & Hsub & Hout & Hskip).
      exists new. split; [exact Hrun|]. split; [now apply sublist_cons|].
      split; [exact Hout|].
      intros i' Hin Hlt Hnot. apply elem_of_cons in Hin as [->|Hin]; [|exact (Hskip i' Hin Hlt Hnot)].
      apply lookup_ge_None in Ha. lia.
Qed.

Lemma omap_sublist {X Y} (h : X -> option Y) (l k : list X) :
  l `sublist_of` k -> omap h l `sublist_of` omap h k.
Proof.
  induction 1 as [|x l k _ IH|x l k _ IH]; cbn [omap list_omap];
    change (list_omap _ _ ?h ?l) with (omap h l).
  - constructor.
  - destruct (h x); [now apply sublist_skip|exact IH].
  - destruct (h x); [now apply sublist_cons|exact IH].
Qed.

Lemma omap_lookup_total {X Y} (h : X -> option Y) (l : list X) p :
  (forall x, x ∈ l -> is_Some (h x)) ->
  omap h l !! p = l !! p ≫= h.
Proof.
  revert p; induction l as [|x l IH]; intros p Hall; [reflexivity|].
  cbn [omap list_omap]. change (list_omap _ _ ?f ?l) with (omap f l).
  destruct (Hall x (list_elem_of_here _ _)) as [y Hy]. rewrite Hy.
  destruct p as [|p]; cbn; [now rewrite Hy|].
  apply IH. intros x' Hx'. apply Hall, list_elem_of_further, Hx'.
Qed.

Lemma omap_length_total {X Y} (h : X -> option Y) (l : list X) :
  (forall x, x ∈ l -> is_Some (h x)) -> length (omap h l) = length l.
Proof.
  induction l as [|x l IH]; intros Hall; [reflexivity|].
  cbn [omap list_omap]. change (list_omap _ _ ?f ?l) with (omap f l).
  destruct (Hall x (list_elem_of_here _ _)) as [y ->]. cbn.
  rewrite IH; [reflexivity|]. intros x' Hx'. apply Hall, list_elem_of_further, Hx'.
Qed.

(** A batch in the pool.  The calls made are calls for inputs of the
    batch, at most one for each.  When the batch returns, every input
    had its call, and the results are the answers to the inputs, in the
    order of the inputs.  When it raises, a call for one of the inputs
    raised that exception. *)
Lemma pool_batch_spec (choose : nat -> nat) tr :
  exists calls,
    snd (pool_batch choose cancels f inputs tr) = tr ++ (ev <$> calls) /\
    calls ⊆+ inputs /\
    (forall bs,
        fst (pool_batch choose cancels f inputs tr) = Ok bs ->
        calls ≡ₚ inputs /\
        Forall2 (fun a b => exists earlier, g (tr ++ (ev <$> earlier)) a = Ok b) inputs bs) /\
    (forall e,
        fst (pool_batch choose cancels f inputs tr) = Raise e ->
        exists a earlier, a ∈ inputs /\ g (tr ++ (ev <$> earlier)) a = Raise e).
Proof.
  unfold pool_batch.
  set (order := schedule choose (length inputs) (seq 0 (length inputs))).
  assert (Hperm : order ≡ₚ seq 0 (length inputs)).
  { unfold order. rewrite <- (length_seq (length inputs) 0) at 1. apply schedule_perm. }
  assert (Hnd : NoDup order) by (rewrite Hperm; apply NoDup_seq).
  destruct (run_pool_spec order [] tr) as (new & -> & Hsub & Hout & Hskip).
  cbn [app fst snd].
  assert (Hnd' : NoDup (fst <$> new)) by (eapply sublist_NoDup; eassumption).
  exists (omap (fun i => inputs !! i) (fst <$> new)).
  split; [reflexivity|]. split; [|split].
  - etrans; [apply sublist_submseteq, omap_sublist, Hsub|].
    now rewrite Hperm, omap_lookup_seq.
  - intros bs H. apply collect_inv_Ok in H.
    assert (Hall : forall i, i ∈ order -> i ∈ fst <$> new).
    { intros i Hi. destruct (decide (i ∈ fst <$> new)) as [|Hnot]; [assumption|].
      exfalso. assert (Hlt : i < length inputs).
      { rewrite Hperm in Hi. apply elem_of_seq in Hi. lia. }
      destruct (Hskip i Hi Hlt Hnot) as (j & e & Hj).
      destruct (Hout j _ Hj) as (a & _ & Ha & _).
      assert (Hin : Raise e ∈ omap (result_of new) (seq 0 (length inputs))).
      { apply list_elem_of_omap. exists j. split.
        - apply elem_of_seq. apply lookup_lt_Some in Ha. lia.
        - now apply result_of_NoDup. }
      rewrite H in Hin. apply list_elem_of_fmap_1 in Hin as (b & Hb & _). discriminate Hb. }
    assert (Hran : fst <$> new ≡ₚ seq 0 (length inputs)).
    { rewrite <- Hperm. apply NoDup_Permutation; [assumption..|].
      intros i. split; [|apply Hall]. intros Hi. eapply elem_of_sublist; eassumption. }
    assert (Hdone : forall i, i ∈ seq 0 (length inputs) -> is_Some (result_of new i)).
    { intros i Hi. rewrite <- Hran in Hi.
      apply list_elem_of_fmap_1 in Hi as ([j o] & -> & Hi).
      exists o. now apply result_of_NoDup. }
    split; [now rewrite Hran, omap_lookup_seq|].
    apply Forall2_same_length_lookup_2.
    + rewrite <- (length_fmap Ok bs), <- H, omap_length_total by exact Hdone.
      now rewrite length_seq.
    + intros i a b Ha Hb.
      assert (Hr : omap (result_of new) (seq 0 (length inputs)) !! i = Some (Ok b)).
      { rewrite H. now apply list_lookup_fmap_Some_2. }
      rewrite omap_lookup_total, lookup_seq_lt in Hr
        by (exact Hdone || eapply lookup_lt_Some, Ha).
      cbn in Hr. apply result_of_elem in Hr.
      destruct (Hout i _ Hr) as (a' & earlier & Ha' & Ho).
      rewrite Ha in Ha'. injection Ha' as <-. now exists earlier.
  - intros e H. apply collect_inv_Raise, list_elem_of_omap in H as (i & _ & Hi).
    apply result_of_elem in Hi.
    destruct (Hout i _ Hi) as (a & earlier & Ha & Ho).
    exists a, earlier. split; [eapply list_elem_of_lookup_2, Ha|now symmetry].
Qed.

End Pool.


Section Extractor.

Import LongText.

Variable sv : Services.

Lemma append_empty_r (s : string) : s +:+ EmptyString = s.
Proof.
  induction s as [|c s IH]; [reflexivity|].
  change (String c (s +:+ EmptyString) = String c s). now rewrite IH.
Qed.

Lemma prompt_parsed :
  prompt = [ (system, [Lit system_text]); (human, [Slot "text"]) ].
Proof. reflexivity. Qed.

(** The prompt puts the value of ["text"] in the human message, as it
    is. *)
Lemma format_prompt (text : string) tr :
  format_messages prompt {[ "text" := text ]} tr = (Ok (extraction_messages text), tr).
Proof.
  rewrite prompt_parsed. unfold extraction_messages.
  cbn [format_messages format]. unfold bind, dict_getitem, ret.
  rewrite lookup_singleton_eq. 
  rewrite !append_empty_r. reflexivity.
Qed.

(** One invocation of the structured model: one call, then the parser. *)
Lemma structured_invoke (msgs : list message) tr :
  invoke (with_structured_output sv) msgs tr
  = (chat_structured sv tr msgs, tr ++ [EvChat msgs]).
Proof.
  unfold with_structured_output, llm. cbn [invoke pipe pooled leaf].
  unfold bind, ask, chat_structured, of_outcome.
  destruct (chat_model sv tr msgs) as [answer|e]; reflexivity.
Qed.

(** The prompt step of the batch: one request per chunk among the
    first three, each with its chunk in the human message. *)
Lemma prompt_batch (texts : list string) tr :
  batch (leaf (format_messages prompt)) (batch_inputs texts) batch_config tr
  = (Ok (extraction_messages <$> take 3 texts), tr).
Proof.
  unfold batch_inputs, first_few. cbn [batch leaf]. unfold default_batch.
  rewrite (run_all_pure _ _ extraction_messages) by apply format_prompt.
  now rewrite collect_Ok.
Qed.

(** The model step of a batch, in the pool. *)
Lemma llm_batch (requests : list (list message)) tr :
  exists calls,
    snd (batch (llm sv) requests batch_config tr) = tr ++ (EvChat <$> calls) /\
    calls ⊆+ requests /\
    (forall replies,
        fst (batch (llm sv) requests batch_config tr) = Ok replies ->
        calls ≡ₚ requests /\
        Forall2 (fun r reply =>
                   exists earlier, chat_model sv (tr ++ (EvChat <$> earlier)) r = Ok reply)
                requests replies) /\
    (forall e,
        fst (batch (llm sv) requests batch_config tr) = Raise e ->
        exists r earlier,
          r ∈ requests /\ chat_model sv (tr ++ (EvChat <$> earlier)) r = Raise e).
Proof.
  unfold llm. cbn [batch pooled].
  apply (pool_batch_spec EvChat (chat_model sv)). reflexivity.
Qed.

(** A run of the brute-force batch: the prompt step, then the model
    step in the pool, then the parser on the answers. *)
Lemma extractions_run (texts : list string) tr :
  extractions sv texts tr =
  match batch (llm sv) (extraction_messages <$> take 3 texts) batch_config tr with
  | (Ok replies, tr') => (collect (tools_parser sv <$> replies), tr')
  | (Raise e, tr') => (Raise e, tr')
  end.
Proof.
  unfold extractions, extractor. cbn [batch pipe]. rewrite bind_run, prompt_batch.
  unfold with_structured_output. cbn [batch pipe]. rewrite bind_run.
  destruct (batch (llm sv) _ batch_config tr) as [[replies|e] tr']; [|reflexivity].
  cbn [batch leaf]. unfold default_batch. now rewrite run_all_of_outcome.
Qed.

(** What the brute-force batch does with the first three chunks. *)
Lemma brute_force_spec (document : Document) tr :
  exists calls,
    snd (brute_force sv document tr) = tr ++ (EvChat <$> calls) /\
    calls ⊆+ extraction_messages <$> take 3 (text_splitter sv (page_content document)) /\
    (forall results,
        fst (brute_force sv document tr) = Ok results ->
        calls ≡ₚ extraction_messages <$> take 3 (text_splitter sv (page_content document)) /\
        Forall2 (fun text result =>
                   exists earlier,
                     chat_structured sv (tr ++ (EvChat <$> earlier))
                                     (extraction_messages text) = Ok result)
                (take 3 (text_splitter sv (page_content document))) results) /\
    (forall e,
        fst (brute_force sv document tr) = Raise e ->
        exists text earlier,
          text ∈ take 3 (text_splitter sv (page_content document)) /\
          chat_structured sv (tr ++ (EvChat <$> earlier)) (extraction_messages text)
          = Raise e) /\
    (calls ≡ₚ extraction_messages <$> take 3 (text_splitter sv (page_content document)) \/
     exists text earlier e,
       text ∈ take 3 (text_splitter sv (page_content document)) /\
       chat_model sv (tr ++ (EvChat <$> earlier)) (extraction_messages text) = Raise e /\
       fst (brute_force sv document tr) = Raise e).
Proof.
  unfold brute_force. rewrite extractions_run.
  set (chunks := take 3 (text_splitter sv (page_content document))).
  destruct (llm_batch (extraction_messages <$> chunks) tr)
    as (calls & Htr & Hsub & Hok & Hraise).
  exists calls.
  destruct (batch (llm sv) _ batch_config tr) as [[replies|e] tr']; cbn [fst snd] in *.
  - destruct (Hok replies eq_refl) as [Hperm HF].
    apply Forall2_fmap_l in HF.
    split; [exact Htr|]. split; [exact Hsub|]. split; [|split; [|now left]].
    + intros results H. split; [exact Hperm|]. apply collect_inv_Ok in H.
      apply Forall2_same_length_lookup_2.
      * rewrite (Forall2_length _ _ _ HF), <- (length_fmap (tools_parser sv) replies), H.
        now rewrite length_fmap.
      * intros i text result Htext Hresult.
        assert (Hex : (tools_parser sv <$> replies) !! i = Some (Ok result)).
        { rewrite H. now apply list_lookup_fmap_Some_2. }
        apply list_lookup_fmap_Some_1 in Hex as (reply & Hparse & Hreply).
        destruct (Forall2_lookup_lr _ _ _ _ _ _ HF Htext Hreply) as [earlier Hchat].
        exists earlier. unfold chat_structured. cbn in Hchat. now rewrite Hchat.
    + intros e H.
      apply collect_inv_Raise, list_elem_of_fmap_1 in H as (reply & Hparse & Hin).
      apply list_elem_of_lookup_1 in Hin as [i Hreply].
      destruct (Forall2_lookup_r _ _ _ _ _ HF Hreply) as (text & Htext & earlier & Hchat).
      exists text, earlier. split; [eapply list_elem_of_lookup_2, Htext|].
      unfold chat_structured. cbn in Hchat. now rewrite Hchat.
  - destruct (Hraise e eq_refl) as (r & earlier & Hin & Hchat).
    apply list_elem_of_fmap_1 in Hin as (text & -> & Hin).
    split; [exact Htr|]. split; [exact Hsub|]. split; [discriminate|]. split.
    + intros e' H. injection H as <-. exists text, earlier. split; [exact Hin|].
      unfold chat_structured. now rewrite Hchat.
    + right. exists text, earlier, e. auto.
Qed.


(** A run of the RAG extractor on a query: one similarity search with
    [k = 1]; on a hit, one call of the chat model with the content of
    the first document in the human message; on an empty answer, an
    [IndexError] from [docs[0]]; on an exception of the search, that
    exception. *)
Lemma rag_extractor_run (vs : vectorstore) (query : string) tr :
  invoke (rag_extractor sv vs) query tr =
  match similarity_search sv tr (indexed_texts vs) query 1 with
  | Ok (d :: _) =>
      (chat_structured sv (tr ++ [EvSimilaritySearch (indexed_texts vs) query 1])
                       (extraction_messages (page_content d)),
       tr ++ [EvSimilaritySearch (indexed_texts vs) query 1;
              EvChat (extraction_messages (page_content d))])
  | Ok [] =>
      (Raise (Exc IndexError "list index out of range"),
       tr ++ [EvSimilaritySearch (indexed_texts vs) query 1])
  | Raise e => (Raise e, tr ++ [EvSimilaritySearch (indexed_texts vs) query 1])
  end.
Proof.
  unfold rag_extractor, retriever, as_retriever, parallel1, extractor.
  cbn [invoke pipe leaf]. unfold bind, ask.
  destruct (similarity_search sv tr (indexed_texts vs) query 1) as [[|d rest]|e];
    cbn [getitem lookup list_lookup raise ret]; try reflexivity.
  rewrite format_prompt, structured_invoke.
  rewrite <- app_assoc. reflexivity.
Qed.

(** C3. For every query the RAG extractor makes exactly one similarity
    search, with [k = 1], and what reaches the extractor's model is
    nothing (when the search raises or returns no document) or the one
    request whose human message is exactly the [page_content] of the
    first document returned. *)
Theorem rag_text_is_top_ranked_chunk (vs : vectorstore) (query : string) (tr : trace) :
  snd (invoke (rag_extractor sv vs) query tr) =
    tr ++ EvSimilaritySearch (indexed_texts vs) query 1 ::
          match similarity_search sv tr (indexed_texts vs) query 1 with
          | Ok (d :: _) =>
              [EvChat [SystemMessage system_text; HumanMessage (page_content d)]]
          | _ => []
          end.
Proof.
  rewrite rag_extractor_run.
  destruct (similarity_search sv tr (indexed_texts vs) query 1) as [[|d rest]|e];
    reflexivity.
Qed.

Lemma set_up_run tr :
  set_up sv tr =
  match http_get sv tr car_url with
  | Ok text =>
      match write_file sv (tr ++ [EvHttpGet car_url]) "car.html" text with
      | Ok _ =>
          let loaded :=
            tr ++ [EvHttpGet car_url; EvWriteFile "car.html" text; EvLoadHtml "car.html"] in
          match bs_html_load sv (tr ++ [EvHttpGet car_url; EvWriteFile "car.html" text])
                             "car.html" with
          | Ok (d :: _) => (Ok (set_page_content d (clean_up (page_content d))), loaded)
          | Ok [] => (Raise (Exc IndexError "list index out of range"), loaded)
          | Raise e => (Raise e, loaded)
          end
      | Raise e => (Raise e, tr ++ [EvHttpGet car_url; EvWriteFile "car.html" text])
      end
  | Raise e => (Raise e, tr ++ [EvHttpGet car_url])
  end.
Proof.
  unfold set_up, bind, ask.
  destruct (http_get sv tr car_url) as [text|e]; [|reflexivity].
  rewrite <- !app_assoc. cbn [app].
  destruct (write_file sv _ "car.html" text) as [[]|e]; [|reflexivity].
  destruct (bs_html_load sv _ "car.html") as [[|d rest]|e]; reflexivity.
Qed.

(** C8. The two unguarded [[0]] are safe exactly when the list is not
    empty.  When the loader returns at least one document, the set up
    returns the first one, cleaned; when the retriever returns at least
    one document, the RAG extractor reaches the chat model and its
    result is the model's answer.  When the retriever returns no
    document, the RAG extractor raises [IndexError] without calling the
    model: it does not return an empty extraction. *)
Theorem unguarded_indexing_needs_nonempty_results :
  (forall tr text d rest,
      http_get sv tr car_url = Ok text ->
      write_file sv (tr ++ [EvHttpGet car_url]) "car.html" text = Ok tt ->
      bs_html_load sv (tr ++ [EvHttpGet car_url; EvWriteFile "car.html" text]) "car.html"
        = Ok (d :: rest) ->
      fst (set_up sv tr) = Ok (set_page_content d (clean_up (page_content d)))) /\
  (forall vs query tr d rest,
      similarity_search sv tr (indexed_texts vs) query 1 = Ok (d :: rest) ->
      invoke (rag_extractor sv vs) query tr =
        (chat_structured sv (tr ++ [EvSimilaritySearch (indexed_texts vs) query 1])
                         (extraction_messages (page_content d)),
         tr ++ [EvSimilaritySearch (indexed_texts vs) query 1;
                EvChat (extraction_messages (page_content d))])) /\
  (forall vs query tr,
      similarity_search sv tr (indexed_texts vs) query 1 = Ok [] ->
      invoke (rag_extractor sv vs) query tr =
        (Raise (Exc IndexError "list index out of range"),
         tr ++ [EvSimilaritySearch (indexed_texts vs) query 1]) /\
      forall ed, fst (invoke (rag_extractor sv vs) query tr) <> Ok ed).
Proof.
  split; [|split].
  - intros tr text d rest Hget Hwrite Hload.
    rewrite set_up_run, Hget, Hwrite, Hload. reflexivity.
  - intros vs query tr d rest Hsearch. now rewrite rag_extractor_run, Hsearch.
  - intros vs query tr Hsearch. rewrite rag_extractor_run, Hsearch.
    split; [reflexivity|]. intros ed; discriminate.
Qed.

(** C10. The query reaches the extractor only through the retrieval:
    two queries whose similarity search returns the same first document
    make the same request to the chat model, the one with the content of
    that document in the human message. *)
Theorem query_reaches_extractor_only_through_retrieval
    (vs : vectorstore) (query1 query2 : string) (tr1 tr2 : trace)
    (d : Document) (rest1 rest2 : list Document) :
  similarity_search sv tr1 (indexed_texts vs) query1 1 = Ok (d :: rest1) ->
  similarity_search sv tr2 (indexed_texts vs) query2 1 = Ok (d :: rest2) ->
  chat_requests (drop (length tr1) (snd (invoke (rag_extractor sv vs) query1 tr1)))
  = chat_requests (drop (length tr2) (snd (invoke (rag_extractor sv vs) query2 tr2))) /\
  chat_requests (drop (length tr1) (snd (invoke (rag_extractor sv vs) query1 tr1)))
  = [[SystemMessage system_text; HumanMessage (page_content d)]].
Proof.
  intros H1 H2. rewrite !rag_extractor_run, H1, H2. cbn [snd].
  rewrite !drop_app_length. split; reflexivity.
Qed.

End Extractor.

Section Examples.

Import LongText.


(** A batch whose first call fails before the pool has started the
    others: they are cancelled, and the batch raises. *)
Example cancelled_after_failure :
  brute_force hasty_services (doc_of "a long text") []
  = (Raise rate_limited, [EvChat (extraction_messages "a")]).
Proof. reflexivity. Qed.

(** The same failure on the second chunk, behind a pool that starts
    with the last invocation: every call is made. *)
Example not_cancelled_after_failure :
  brute_force failing_chat_services (doc_of "a long text") []
  = (Raise rate_limited,
     [EvChat (extraction_messages "c"); EvChat (extraction_messages "b");
      EvChat (extraction_messages "a")]).
Proof. reflexivity. Qed.

End Examples.

(* ===================================================================== *)
(** ** The guarded calls of the RunPod notebook *)
(* ===================================================================== *)

Section Guarded.

Import RunPodNotebook.

Variable sv : Services.

Lemma endpoint_calls_app tr1 tr2 :
  endpoint_calls (tr1 ++ tr2) = endpoint_calls tr1 ++ endpoint_calls tr2.
Proof. apply omap_app. Qed.

Lemma endpoint_calls_prints xs : endpoint_calls (EvPrint <$> xs) = [].
Proof. induction xs as [|x xs IH]; [reflexivity|exact IH]. Qed.

Lemma endpoint_calls_header m : endpoint_calls (header m) = [].
Proof. destruct m; reflexivity. Qed.

(** The handler's message has [str(e)] in it. *)
Lemma error_message_contains m e : contains (error_message m e) e.
Proof.
  destruct m; cbn [error_message].
  - exists "Error invoking LLM: ",
      ". Ensure endpoint ID/API key are correct and endpoint is active/compatible.".
    reflexivity.
  - exists (String nl "Error streaming LLM: "),
      ". Ensure endpoint handler supports streaming output format.".
    reflexivity.
  - exists "Error invoking LLM asynchronously: ", ".". reflexivity.
  - exists (String nl "Error streaming LLM asynchronously: "),
      ". Ensure endpoint handler supports streaming output format.".
    reflexivity.
Qed.

(** A run of a guarded call cell whose endpoint raises [e]: the
    exception is handled when it is an [Exception], and leaves the cell
    otherwise. *)
Lemma cell_run_raising m tr e :
  underlying_raises sv m (tr ++ header m) = Some e ->
  cell sv m tr =
    if isinstance_Exception (exc_cls e)
    then (Ok tt, tr ++ handled sv m tr e)
    else (Raise e,
          tr ++ header m ++ [EvRunPod m prompt] ++
                (EvPrint <$> streamed sv m (tr ++ header m))).
Proof.
  unfold handled.
  destruct m; cbn [cell header streamed underlying_raises error_message];
    rewrite ?app_nil_r; intros H.
  - unfold cell_invoke, try_except_Exception, bind. cbn [invoke llm leaf]. unfold ask.
    destruct (runpod_generate sv tr m_invoke prompt) as [?|e']; [discriminate|].
    injection H as ->.
    destruct (isinstance_Exception (exc_cls e)); [|reflexivity].
    unfold print. rewrite <- app_assoc. reflexivity.
  - unfold cell_stream, try_except_Exception, bind, llm_stream, for_stream, bind.
    unfold print at 1. rewrite for_each_print_end, H. cbn [raise].
    destruct (isinstance_Exception (exc_cls e)).
    + unfold print. rewrite <- !app_assoc. reflexivity.
    + rewrite <- !app_assoc. reflexivity.
  - unfold cell_ainvoke, try_except_Exception, bind. cbn [invoke llm leaf]. unfold ask.
    destruct (runpod_generate sv tr m_ainvoke prompt) as [?|e']; [discriminate|].
    injection H as ->.
    destruct (isinstance_Exception (exc_cls e)); [|reflexivity].
    unfold print. rewrite <- app_assoc. reflexivity.
  - unfold cell_astream, try_except_Exception, bind, llm_stream, for_stream, bind.
    unfold print at 1. rewrite for_each_print_end, H. cbn [raise].
    destruct (isinstance_Exception (exc_cls e)).
    + unfold print. rewrite <- !app_assoc. reflexivity.
    + rewrite <- !app_assoc. reflexivity.
Qed.

End Guarded.

Section GuardedExamples.

Import RunPodNotebook.

(** The claim C4 as stated fails for an exception that is not an
    [Exception]: a [KeyboardInterrupt] raised by [llm.invoke] leaves the
    cell, and nothing is printed. *)
Lemma keyboard_interrupt_is_not_caught :
  underlying_raises interrupted_services m_invoke [] = Some (Exc KeyboardInterrupt "") /\
  cell interrupted_services m_invoke [] =
    (Raise (Exc KeyboardInterrupt ""), [EvRunPod m_invoke prompt]).
Proof. split; reflexivity. Qed.

End GuardedExamples.

Section ChainCell.

Import RunPodNotebook.

Variable sv : Services.

Lemma joke_prompt (topic : string) tr :
  format (from_template "Tell me a joke about {topic}") {[ "topic" := topic ]} tr
  = (Ok ("Tell me a joke about " +:+ topic), tr).
Proof.
  change (from_template "Tell me a joke about {topic}")
    with [Lit "Tell me a joke about "; Slot "topic"].
  cbn [format]. unfold bind, dict_getitem, ret.
  rewrite lookup_singleton_eq, append_empty_r. reflexivity.
Qed.

(** One guarded chain call: the prompt is formatted, the endpoint is
    called once with it, and an [Exception] ends in the handler. *)
Lemma chain_try_run (m : runpod_method) (topic title failure : string) tr :
  try_except_Exception
    (chain_response <- invoke (chain sv m) {[ "topic" := topic ]} ;;
     print title ;;
     print chain_response)
    (fun e => print (failure +:+ exc_str e)) tr =
  match runpod_generate sv tr m ("Tell me a joke about " +:+ topic) with
  | Ok text =>
      (Ok tt, tr ++ [EvRunPod m ("Tell me a joke about " +:+ topic);
                     EvPrint (title +:+ single_newline);
                     EvPrint (text +:+ single_newline)])
  | Raise e =>
      if isinstance_Exception (exc_cls e)
      then (Ok tt, tr ++ [EvRunPod m ("Tell me a joke about " +:+ topic);
                          EvPrint ((failure +:+ exc_str e) +:+ single_newline)])
      else (Raise e, tr ++ [EvRunPod m ("Tell me a joke about " +:+ topic)])
  end.
Proof.
  unfold try_except_Exception, chain, prompt_template, StrOutputParser.
  cbn [invoke pipe leaf llm]. unfold bind. rewrite joke_prompt. unfold ask.
  destruct (runpod_generate sv tr m _) as [text|e].
  - unfold ret, print. rewrite <- !app_assoc. reflexivity.
  - destruct (isinstance_Exception (exc_cls e)); [|reflexivity].
    unfold print. rewrite <- !app_assoc. reflexivity.
Qed.

(** The chaining cell: when the endpoint raises nothing but instances
    of [Exception], the cell ends normally and the endpoint was called
    exactly twice, once per chain, with the formatted prompts. *)
Theorem chain_cell_calls_endpoint_twice (tr : trace) :
  (forall tr' m p e,
      runpod_generate sv tr' m p = Raise e -> isinstance_Exception (exc_cls e) = true) ->
  fst (cell_chain sv tr) = Ok tt /\
  endpoint_calls (drop (length tr) (snd (cell_chain sv tr)))
  = [ (m_invoke, "Tell me a joke about bears");
      (m_ainvoke, "Tell me a joke about robots") ].
Proof.
  intros Hexc. unfold cell_chain. rewrite !bind_run.
  rewrite !(chain_try_run m_invoke "bears" "--- Chain Response ---" "Error running chain: ").
  destruct (runpod_generate sv tr m_invoke _) as [text1|e1] eqn:E1;
    [|rewrite (Hexc _ _ _ _ E1)]; cbv beta iota;
    rewrite !(chain_try_run m_ainvoke "robots" "--- Async Chain Response ---"
               "Error running async chain: ");
    (destruct (runpod_generate sv _ m_ainvoke _) as [text2|e2] eqn:E2;
     [|rewrite (Hexc _ _ _ _ E2)]);
    cbn [fst snd]; rewrite <- app_assoc, drop_app_length; split; reflexivity.
Qed.

End ChainCell.

Section Instances.

Import LongText RunPodNotebook.

(** The chaining cell on an endpoint that refuses every call. *)
Lemma chain_cell_calls_endpoint_twice_witness :
  fst (cell_chain refusing_services []) = Ok tt.
Proof.
  apply (chain_cell_calls_endpoint_twice refusing_services []).
  intros tr' m p e H. injection H as <-. reflexivity.
Defined.

(** C8 on the car index: the loader and the query "cars" return a
    document, the query "boats" returns none. *)
Lemma unguarded_indexing_witness :
  fst (set_up car_services [])
    = Ok (doc_of "Carl Benz patented his Motorwagen in 1886.") /\
  fst (invoke (rag_extractor car_services car_index) "cars" [])
    = Ok (Some {| key_developments := [] |}) /\
  fst (invoke (rag_extractor car_services car_index) "boats" [])
    = Raise (Exc IndexError "list index out of range").
Proof.
  destruct (unguarded_indexing_needs_nonempty_results car_services) as (H1 & H2 & H3).
  split; [|split].
  - apply (H1 [] "<html>car</html>" (doc_of "Carl Benz patented his Motorwagen in 1886.") []);
      reflexivity.
  - rewrite (H2 car_index "cars" [] (doc_of "Carl Benz patented his Motorwagen in 1886.")
               []); reflexivity.
  - destruct (H3 car_index "boats" []) as [H _]; [reflexivity|].
    rewrite H. reflexivity.
Defined.

(** C10 on the car index: two different queries with the same first
    document. *)
Lemma query_reaches_extractor_witness :
  chat_requests (snd (invoke (rag_extractor car_services car_index) "cars" []))
  = chat_requests
      (snd (invoke (rag_extractor car_services car_index)
                   "Key developments associated with cars" [])).
Proof.
  apply (query_reaches_extractor_only_through_retrieval car_services car_index
           "cars" "Key developments associated with cars" [] []
           (doc_of "Carl Benz patented his Motorwagen in 1886.") [] []);
    reflexivity.
Defined.

(** C2 on three extractions, the second one empty: the only element of
    the third is at position 2. *)
Lemma merge_witness :
  merge [ {| key_developments := [corolla; cugnot] |};
          {| key_developments := [] |};
          {| key_developments := [benz] |} ] !! 2 = Some benz.
Proof.
  destruct (merge_is_in_order_concatenation
              [ {| key_developments := [corolla; cugnot] |};
                {| key_developments := [] |};
                {| key_developments := [benz] |} ]) as (_ & _ & H & _).
  apply (H 2 {| key_developments := [benz] |} 0 benz); reflexivity.
Defined.

End Instances.

(* ===================================================================== *)
(** ** Further properties of the cells *)
(* ===================================================================== *)

Section Further.

Import LongText RunPodNotebook.

Variable sv : Services.

(** The batch of the brute-force cell never has more inputs than its
    concurrency limit: at most three inputs, limit five. *)
Theorem batch_within_concurrency_limit (texts : list string) :
  max_concurrency batch_config = Some 5 /\
  length (batch_inputs texts) <= 3 /\
  length (batch_inputs texts) = min 3 (length texts).
Proof.
  unfold batch_inputs, first_few. rewrite length_fmap, length_take.
  split; [reflexivity|]. split; lia.
Qed.

(** The document the set up returns has no blank line, whatever the
    page that was loaded, and the clean-up line run on it once more
    leaves it as it is. *)
Theorem set_up_document_has_no_blank_line (tr : trace) (document : Document) :
  fst (set_up sv tr) = Ok document ->
  blank_free (page_content document) = true /\
  set_page_content document (clean_up (page_content document)) = document.
Proof.
  rewrite set_up_run.
  destruct (http_get sv tr car_url) as [text|e]; [|discriminate].
  destruct (write_file sv _ "car.html" text) as [[]|e]; [|discriminate].
  destruct (bs_html_load sv _ "car.html") as [[|d rest]|e]; try discriminate.
  cbn [fst]. intros H. injection H as <-. cbn [page_content set_page_content].
  split; [apply clean_up_blank_free|].
  unfold set_page_content. cbn [page_content metadata].
  rewrite (clean_up_normalize (clean_up _)), normalize_fixed by apply clean_up_blank_free.
  reflexivity.
Qed.

(** An exception that is not an instance of [Exception] leaves the
    guarded cell: the handler does not run. *)
Theorem base_exception_leaves_cell (m : runpod_method) (tr : trace) (e : exception) :
  underlying_raises sv m (tr ++ header m) = Some e ->
  isinstance_Exception (exc_cls e) = false ->
  cell sv m tr =
    (Raise e,
     tr ++ header m ++ [EvRunPod m prompt] ++
           (EvPrint <$> streamed sv m (tr ++ header m))).
Proof.
  intros Hraise Hinst. now rewrite (cell_run_raising sv m tr e Hraise), Hinst.
Qed.

End Further.

Section FurtherInstances.

Import LongText RunPodNotebook.

(** The set up on a page with blank lines: one run of two newlines and
    one of three are each replaced by one newline. *)
Lemma set_up_document_witness :
  fst (set_up blank_page_services []) = Ok (doc_of cleaned_page) /\
  blank_free cleaned_page = true.
Proof.
  split; [reflexivity|].
  apply (set_up_document_has_no_blank_line blank_page_services [] (doc_of cleaned_page)).
  reflexivity.
Defined.

(** A [KeyboardInterrupt] during the awaited call. *)
Lemma base_exception_witness :
  cell interrupted_services m_ainvoke [] =
    (Raise (Exc KeyboardInterrupt ""), [EvRunPod m_ainvoke prompt]).
Proof.
  apply (base_exception_leaves_cell interrupted_services m_ainvoke []
           (Exc KeyboardInterrupt "")); reflexivity.
Defined.

End FurtherInstances.

(* ===================================================================== *)
(** ** The guarded cells, in every run *)
(* ===================================================================== *)

Section GuardedRuns.

Import RunPodNotebook.

Variable sv : Services.

Lemma cell_run_answering m tr :
  underlying_raises sv m (tr ++ header m) = None ->
  cell sv m tr = (Ok tt, tr ++ completed sv m tr).
Proof.
  unfold completed.
  destruct m; cbn [cell header underlying_raises]; rewrite ?app_nil_r; intros H.
  - unfold cell_invoke, try_except_Exception. rewrite !bind_run.
    cbn [invoke llm leaf]. unfold ask.
    destruct (runpod_generate sv tr m_invoke prompt) as [text|e']; [|discriminate].
    rewrite !bind_run. unfold print. rewrite <- !app_assoc. reflexivity.
  - unfold cell_stream, try_except_Exception. rewrite !bind_run.
    unfold print at 1, llm_stream, for_stream. rewrite !bind_run.
    rewrite for_each_print_end, H. unfold ret, print.
    rewrite <- !app_assoc. reflexivity.
  - unfold cell_ainvoke, try_except_Exception. rewrite !bind_run.
    cbn [invoke llm leaf]. unfold ask.
    destruct (runpod_generate sv tr m_ainvoke prompt) as [text|e']; [|discriminate].
    rewrite !bind_run. unfold print. rewrite <- !app_assoc. reflexivity.
  - unfold cell_astream, try_except_Exception. rewrite !bind_run.
    unfold print at 1, llm_stream, for_stream. rewrite !bind_run.
    rewrite for_each_print_end, H. unfold ret, print.
    rewrite <- !app_assoc. reflexivity.
Qed.

Lemma endpoint_calls_completed m tr : endpoint_calls (completed sv m tr) = [(m, prompt)].
Proof.
  unfold completed. rewrite !endpoint_calls_app, endpoint_calls_header.
  destruct m; cbn [app].
  - destruct (runpod_generate sv tr m_invoke prompt); reflexivity.
  - rewrite endpoint_calls_app, endpoint_calls_prints. reflexivity.
  - destruct (runpod_generate sv tr m_ainvoke prompt); reflexivity.
  - rewrite endpoint_calls_app, endpoint_calls_prints. reflexivity.
Qed.

(** When the endpoint answers, a guarded cell ends normally and prints
    the answer after its header: the title and the text for invoke and
    ainvoke, every chunk in order and then a newline for stream and
    astream. *)
Theorem guarded_cell_prints_answer (m : runpod_method) (tr : trace) :
  underlying_raises sv m (tr ++ header m) = None ->
  cell sv m tr = (Ok tt, tr ++ completed sv m tr).
Proof. apply cell_run_answering. Qed.

(** In every run, whatever the endpoint does, a guarded cell calls the
    endpoint exactly once, with the tagline prompt: it never retries and
    never skips the call. *)
Theorem guarded_cell_calls_endpoint_once (m : runpod_method) (tr : trace) :
  endpoint_calls (drop (length tr) (snd (cell sv m tr))) = [(m, prompt)].
Proof.
  destruct (underlying_raises sv m (tr ++ header m)) as [e|] eqn:E.
  - rewrite (cell_run_raising sv m tr e E).
    destruct (isinstance_Exception (exc_cls e)); cbn [snd]; rewrite drop_app_length.
    + unfold handled.
      rewrite !endpoint_calls_app, endpoint_calls_header, endpoint_calls_prints.
      reflexivity.
    + rewrite !endpoint_calls_app, endpoint_calls_header, endpoint_calls_prints.
      reflexivity.
  - rewrite (cell_run_answering m tr E). cbn [snd]. rewrite drop_app_length.
    apply endpoint_calls_completed.
Qed.

(** An exception that leaves a guarded cell is never an instance of
    [Exception], and it is the one the endpoint raised: the handlers let
    nothing of their own escape. *)
Theorem only_base_exceptions_leave_cell (m : runpod_method) (tr : trace) (e : exception) :
  fst (cell sv m tr) = Raise e ->
  isinstance_Exception (exc_cls e) = false /\
  underlying_raises sv m (tr ++ header m) = Some e.
Proof.
  destruct (underlying_raises sv m (tr ++ header m)) as [e'|] eqn:E.
  - rewrite (cell_run_raising sv m tr e' E).
    destruct (isinstance_Exception (exc_cls e')) eqn:I; cbn [fst]; [discriminate|].
    intros H. injection H as <-. auto.
  - rewrite (cell_run_answering m tr E). discriminate.
Qed.

End GuardedRuns.

Section GuardedRunsInstances.

Import RunPodNotebook.

(** The stream cell on an endpoint that streams two chunks. *)
Lemma guarded_cell_prints_answer_witness :
  cell answering_services m_stream [] =
    (Ok tt,
     [ EvPrint (String nl "--- Sync Stream Response ---" +:+ single_newline);
       EvRunPod m_stream prompt;
       EvPrint "Scoops "; EvPrint "in low gravity."; EvPrint single_newline ]).
Proof.
  apply (guarded_cell_prints_answer answering_services m_stream []). reflexivity.
Defined.

(** A [KeyboardInterrupt] during the stream leaves the cell. *)
Lemma only_base_exceptions_witness :
  isinstance_Exception KeyboardInterrupt = false /\
  underlying_raises
    (canned [] (fun _ => []) (Ok "")
            {| chunks := ["Moon"]; ending := Some (Exc KeyboardInterrupt "") |})
    m_stream ([] ++ header m_stream) = Some (Exc KeyboardInterrupt "").
Proof.
  apply (only_base_exceptions_leave_cell
           (canned [] (fun _ => []) (Ok "")
                   {| chunks := ["Moon"]; ending := Some (Exc KeyboardInterrupt "") |})
           m_stream [] (Exc KeyboardInterrupt "")).
  reflexivity.
Defined.

End GuardedRunsInstances.

(* ===================================================================== *)
(** ** Prompt templates and the chains built on them *)
(* ===================================================================== *)

Section Templates.


Lemma brace_free_app a b :
  brace_free (a +:+ b) = brace_free a && brace_free b.
Proof.
  induction a as [|x a IH]; [reflexivity|].
  change (brace_free (String x (a +:+ b)) = brace_free (String x a) && brace_free b).
  cbn [brace_free]. rewrite IH, andb_assoc. reflexivity.
Qed.










End Templates.

Section TemplatesInstances.



End TemplatesInstances.

Section Chains.

Import LongText RunPodNotebook.

Variable sv : Services.








End Chains.

Section ChainsInstances.

Import LongText RunPodNotebook.




End ChainsInstances.

(* ===================================================================== *)
(** ** What the clean-up keeps *)
(* ===================================================================== *)

Section CleanUpKeeps.

Lemma split_lines_cons s : split_lines s = first_line s :: rest_lines s.
Proof.
  unfold first_line, rest_lines.
  destruct s as [|c s]; [reflexivity|]. cbn [split_lines].
  destruct (Ascii.eqb c nl); [reflexivity|].
  destruct (split_lines s); reflexivity.
Qed.

Lemma split_lines_newline s : split_lines (String nl s) = EmptyString :: split_lines s.
Proof. reflexivity. Qed.

Lemma split_lines_other c s :
  Ascii.eqb c nl = false ->
  split_lines (String c s) = String c (first_line s) :: rest_lines s.
Proof.
  intros H. cbn [split_lines]. rewrite H, (split_lines_cons s). reflexivity.
Qed.

Lemma text_lines_drop_leading s :
  text_lines (string_drop (leading_newlines s) s) = text_lines s.
Proof.
  induction s as [|c s IH]; [reflexivity|].
  cbn [leading_newlines]. destruct (Ascii.eqb c nl) eqn:E; [|reflexivity].
  apply Ascii.eqb_eq in E as ->. cbn [string_drop]. rewrite IH.
  unfold text_lines. rewrite split_lines_newline. reflexivity.
Qed.

Lemma normalize_lines n :
  forall s, String.length s <= n ->
    first_line (normalize s) = first_line s /\
    List.filter nonempty (rest_lines (normalize s)) = List.filter nonempty (rest_lines s).
Proof.
  induction n as [|n IH]; intros [|c s] Hlen; cbn in Hlen; try lia;
    try (split; reflexivity).
  rewrite normalize_cons.
  destruct (Ascii.eqb c nl && starts_with_newline s) eqn:E.
  - apply andb_true_iff in E as [Ec Es]. apply Ascii.eqb_eq in Ec as ->.
    unfold first_line, rest_lines. rewrite !split_lines_newline. cbn [hd tl].
    split; [reflexivity|].
    destruct (IH (string_drop (leading_newlines s) s)) as [Hf Hr].
    { pose proof (string_drop_length (leading_newlines s) s). lia. }
    fold (text_lines s). rewrite <- (text_lines_drop_leading s). unfold text_lines.
    rewrite (split_lines_cons (normalize _)), (split_lines_cons (string_drop _ _)).
    cbn [List.filter]. rewrite Hf, Hr. reflexivity.
  - destruct (IH s) as [Hf Hr]; [lia|].
    destruct (Ascii.eqb c nl) eqn:Ec.
    + apply Ascii.eqb_eq in Ec as ->.
      unfold first_line, rest_lines. rewrite !split_lines_newline. cbn [hd tl].
      split; [reflexivity|].
      rewrite (split_lines_cons (normalize s)), (split_lines_cons s).
      cbn [List.filter]. rewrite Hf, Hr. reflexivity.
    + assert (first_line (String c (normalize s)) = String c (first_line (normalize s)))
        as -> by (unfold first_line at 1; now rewrite (split_lines_other c _ Ec)).
      assert (first_line (String c s) = String c (first_line s))
        as -> by (unfold first_line at 1; now rewrite (split_lines_other c _ Ec)).
      assert (rest_lines (String c (normalize s)) = rest_lines (normalize s))
        as -> by (unfold rest_lines at 1; now rewrite (split_lines_other c _ Ec)).
      assert (rest_lines (String c s) = rest_lines s)
        as -> by (unfold rest_lines at 1; now rewrite (split_lines_other c _ Ec)).
      rewrite Hf. auto.
Qed.

Lemma normalize_length n :
  forall s, String.length s <= n -> String.length (normalize s) <= String.length s.
Proof.
  induction n as [|n IH]; intros [|c s] Hlen; cbn in Hlen; try lia; try (cbn; lia).
  rewrite normalize_cons.
  destruct (Ascii.eqb c nl && starts_with_newline s).
  - pose proof (string_drop_length (leading_newlines s) s).
    specialize (IH (string_drop (leading_newlines s) s) ltac:(lia)).
    cbn [String.length]. lia.
  - specialize (IH s ltac:(lia)). cbn [String.length]. lia.
Qed.

(** The clean-up removes blank lines and nothing else: the lines of the
    result that are not empty are those of the input, in order, and the
    result is never longer than the input. *)
Theorem clean_up_keeps_the_lines (content : string) :
  text_lines (clean_up content) = text_lines content /\
  String.length (clean_up content) <= String.length content.
Proof.
  rewrite clean_up_normalize. split.
  - destruct (normalize_lines (String.length content) content (le_n _)) as [Hf Hr].
    unfold text_lines.
    rewrite (split_lines_cons (normalize content)), (split_lines_cons content).
    cbn [List.filter]. rewrite Hf, Hr. reflexivity.
  - apply (normalize_length (String.length content)), le_n.
Qed.

(** The texts the clean-up leaves unchanged are exactly those without
    two consecutive newlines. *)
Theorem clean_up_fixed_points (content : string) :
  clean_up content = content <-> blank_free content = true.
Proof.
  split.
  - intros H. rewrite <- H. apply clean_up_blank_free.
  - intros H. rewrite clean_up_normalize. apply normalize_fixed, H.
Qed.

End CleanUpKeeps.

(* ===================================================================== *)
(** ** Merging, and the cells around the extractors *)
(* ===================================================================== *)

Section MergeMore.

Import LongText.

Lemma merge_app es1 es2 : merge (es1 ++ es2) = merge es1 ++ merge es2.
Proof. rewrite !merge_concat, fmap_app, concat_app. reflexivity. Qed.

Lemma occurrences_app x l1 l2 :
  occurrences x (l1 ++ l2) = occurrences x l1 + occurrences x l2.
Proof.
  induction l1 as [|y l1 IH]; [reflexivity|].
  cbn [app occurrences]. rewrite IH. lia.
Qed.

Lemma occurrences_elem x l : x ∈ l -> 1 <= occurrences x l.
Proof.
  induction 1 as [x l|x y l _ IH]; cbn [occurrences].
  - rewrite Z.eqb_refl, !String.eqb_refl. cbn. lia.
  - lia.
Qed.

(** Merging does not de-duplicate: merging more extractions appends
    their key developments, occurrences add up, and a key development
    found in two parts of the extractions is in the merged list at least
    twice. *)
Theorem merge_keeps_duplicates (es1 es2 : list ExtractionData) (x : KeyDevelopment) :
  merge (es1 ++ es2) = merge es1 ++ merge es2 /\
  occurrences x (merge (es1 ++ es2)) = occurrences x (merge es1) + occurrences x (merge es2) /\
  (x ∈ merge es1 -> x ∈ merge es2 -> 2 <= occurrences x (merge (es1 ++ es2))).
Proof.
  rewrite merge_app, occurrences_app. split; [reflexivity|]. split; [reflexivity|].
  intros H1 H2. apply occurrences_elem in H1, H2. lia.
Qed.

End MergeMore.

Section Pipelines.

Import LongText LongTextCells.

Variable sv : Services.

Lemma extend_all_run (acc : list KeyDevelopment) (exs : list (option ExtractionData)) tr :
  snd (extend_all acc exs tr) = tr /\
  (forall kds,
      fst (extend_all acc exs tr) = Ok kds ->
      exists es, exs = Some <$> es /\ kds = acc ++ concat (key_developments <$> es)) /\
  (forall e,
      fst (extend_all acc exs tr) = Raise e ->
      None ∈ exs /\ exc_cls e = OtherException "AttributeError").
Proof.
  revert acc; induction exs as [|[ed|] exs IH]; intros acc; cbn [extend_all].
  - split; [reflexivity|]. split; [|discriminate].
    intros kds H. injection H as <-. exists []. now rewrite app_nil_r.
  - destruct (IH (acc ++ key_developments ed)) as (Htr & Hok & Hraise).
    split; [exact Htr|]. split.
    + intros kds H. destruct (Hok kds H) as (es & -> & ->).
      exists (ed :: es). cbn. now rewrite <- app_assoc.
    + intros e H. destruct (Hraise e H) as [Hin He].
      split; [apply list_elem_of_further, Hin|exact He].
  - split; [reflexivity|]. split; [discriminate|].
    intros e H. injection H as <-. split; [apply list_elem_of_here|reflexivity].
Qed.

(** The merge loop stops at the first extraction that is [None]. *)
Lemma extend_all_none (acc : list KeyDevelopment) (exs : list (option ExtractionData)) tr :
  None ∈ exs -> extend_all acc exs tr = (Raise no_key_developments, tr).
Proof.
  revert acc; induction exs as [|[ed|] exs IH]; intros acc Hin.
  - now apply elem_of_nil in Hin.
  - apply elem_of_cons in Hin as [Hin|Hin]; [discriminate Hin|]. cbn [extend_all].
    apply IH, Hin.
  - reflexivity.
Qed.

(** The brute-force cells together.  The chat model receives requests
    of the first three chunks only, each at most once.  When the cells
    return, the merged list is the concatenation, in the order of the
    chunks, of the extractions parsed from the answers to the three
    chunks.  When they raise, either the call or the parser of one of
    these chunks raised that exception, or the answer to one of them
    had no tool call and the merge loop raised an [AttributeError]. *)
Theorem brute_force_merges_the_answers (document : Document) (tr : trace) :
  let chunks := take 3 (text_splitter sv (page_content document)) in
  (exists calls,
      calls ⊆+ extraction_messages <$> chunks /\
      snd (brute_force_merged sv document tr) = tr ++ (EvChat <$> calls)) /\
  (forall kds,
      fst (brute_force_merged sv document tr) = Ok kds ->
      exists es,
        Forall2 (fun text extraction =>
                   exists earlier,
                     chat_structured sv (tr ++ (EvChat <$> earlier))
                                     (extraction_messages text)
                     = Ok (Some extraction))
                chunks es /\
        kds = concat (key_developments <$> es)) /\
  (forall e,
      fst (brute_force_merged sv document tr) = Raise e ->
      exists text earlier,
        text ∈ chunks /\
        (chat_structured sv (tr ++ (EvChat <$> earlier)) (extraction_messages text)
         = Raise e \/
         (chat_structured sv (tr ++ (EvChat <$> earlier)) (extraction_messages text)
          = Ok None /\
          exc_cls e = OtherException "AttributeError"))).
Proof.
  intros chunks. unfold brute_force_merged. rewrite bind_run.
  destruct (brute_force_spec sv document tr) as (calls & Htr & Hsub & Hok & Hraise & _).
  fold chunks in Hsub, Hok, Hraise.
  destruct (brute_force sv document tr) as [[exs|e'] tr']; cbn [fst snd] in *.
  - destruct (Hok exs eq_refl) as [_ HF]. unfold merge_cell.
    destruct (extend_all_run [] exs tr') as (Hsame & Hmerged & Hnone).
    split; [exists calls; split; [exact Hsub|now rewrite Hsame]|]. split.
    + intros kds H. destruct (Hmerged kds H) as (es & -> & ->).
      exists es. split; [|reflexivity]. now apply Forall2_fmap_r in HF.
    + intros e H. destruct (Hnone e H) as [Hin He].
      apply list_elem_of_lookup_1 in Hin as [i Hi].
      destruct (Forall2_lookup_r _ _ _ _ _ HF Hi) as (text & Htext & earlier & Hchat).
      exists text, earlier. split; [eapply list_elem_of_lookup_2, Htext|]. now right.
  - split; [exists calls; split; [exact Hsub|exact Htr]|]. split; [discriminate|].
    intros e H. injection H as <-.
    destruct (Hraise e' eq_refl) as (text & earlier & Hin & Hchat).
    exists text, earlier. split; [exact Hin|]. now left.
Qed.

Lemma rag_approach_run (document : Document) tr :
  rag_approach sv document tr =
  match faiss_from_texts sv tr (text_splitter sv (page_content document)) with
  | Ok _ =>
      invoke (rag_extractor sv {| indexed_texts := text_splitter sv (page_content document) |})
             rag_query (tr ++ [EvIndexTexts (text_splitter sv (page_content document))])
  | Raise e => (Raise e, tr ++ [EvIndexTexts (text_splitter sv (page_content document))])
  end.
Proof.
  unfold rag_approach, rag_set_up, from_texts, results, bind, ask, ret.
  destruct (faiss_from_texts sv tr _); reflexivity.
Qed.

(** The RAG cells together: every chunk of the splitter is indexed, not
    only the first three; when the indexing raises, nothing else is
    done; otherwise the index is searched once, over all the chunks,
    for the query of the notebook with [k = 1], and the chat model is
    called at most once. *)
Theorem rag_approach_indexes_every_chunk (document : Document) (tr : trace) :
  let texts := text_splitter sv (page_content document) in
  (forall e,
      faiss_from_texts sv tr texts = Raise e ->
      rag_approach sv document tr = (Raise e, tr ++ [EvIndexTexts texts])) /\
  (forall u,
      faiss_from_texts sv tr texts = Ok u ->
      exists calls,
        snd (rag_approach sv document tr) =
          tr ++ [EvIndexTexts texts; EvSimilaritySearch texts rag_query 1] ++
                (EvChat <$> calls) /\
        length calls <= 1).
Proof.
  cbv zeta. rewrite rag_approach_run. split.
  - intros e ->. reflexivity.
  - intros u ->. rewrite rag_extractor_run. cbn [indexed_texts].
    destruct (similarity_search sv _ _ rag_query 1) as [[|d rest]|e]; cbn [snd].
    + exists []. rewrite <- app_assoc. split; [reflexivity|cbn; lia].
    + exists [extraction_messages (page_content d)].
      rewrite <- app_assoc. split; [reflexivity|cbn; lia].
    + exists []. rewrite <- app_assoc. split; [reflexivity|cbn; lia].
Qed.

Lemma clean_up_text_lines s : text_lines (clean_up s) = text_lines s.
Proof.
  rewrite clean_up_normalize.
  destruct (normalize_lines (String.length s) s (le_n _)) as [Hf Hr].
  unfold text_lines. rewrite (split_lines_cons (normalize s)), (split_lines_cons s).
  cbn [List.filter]. rewrite Hf, Hr. reflexivity.
Qed.

(** The set up stops at the first step that fails: when the download
    raises, nothing is written or loaded; when the write raises, nothing
    is loaded; when the three steps succeed, the file holds the text
    that was downloaded and the document returned is the first one
    loaded, with its metadata and its lines of text. *)
Theorem set_up_stops_at_first_failure (tr : trace) :
  (forall e,
      http_get sv tr car_url = Raise e ->
      set_up sv tr = (Raise e, tr ++ [EvHttpGet car_url])) /\
  (forall text e,
      http_get sv tr car_url = Ok text ->
      write_file sv (tr ++ [EvHttpGet car_url]) "car.html" text = Raise e ->
      set_up sv tr = (Raise e, tr ++ [EvHttpGet car_url; EvWriteFile "car.html" text])) /\
  (forall text d rest,
      http_get sv tr car_url = Ok text ->
      write_file sv (tr ++ [EvHttpGet car_url]) "car.html" text = Ok tt ->
      bs_html_load sv (tr ++ [EvHttpGet car_url; EvWriteFile "car.html" text]) "car.html"
        = Ok (d :: rest) ->
      exists document,
        set_up sv tr =
          (Ok document,
           tr ++ [EvHttpGet car_url; EvWriteFile "car.html" text; EvLoadHtml "car.html"]) /\
        metadata document = metadata d /\
        text_lines (page_content document) = text_lines (page_content d)).
Proof.
  split; [|split].
  - intros e H. now rewrite set_up_run, H.
  - intros text e Hget Hwrite. now rewrite set_up_run, Hget, Hwrite.
  - intros text d rest Hget Hwrite Hload.
    exists (set_page_content d (clean_up (page_content d))).
    rewrite set_up_run, Hget, Hwrite, Hload. split; [reflexivity|].
    split; [reflexivity|]. apply clean_up_text_lines.
Qed.

End Pipelines.

Section PipelinesInstances.

Import LongText LongTextCells.

(** Two extractions of overlapping chunks that both found Benz. *)
Lemma merge_keeps_duplicates_witness :
  2 <= occurrences benz (merge ([ {| key_developments := [cugnot; benz] |} ] ++
                                [ {| key_developments := [benz; corolla] |} ])).
Proof.
  destruct (merge_keeps_duplicates [ {| key_developments := [cugnot; benz] |} ]
              [ {| key_developments := [benz; corolla] |} ] benz) as (_ & _ & H).
  apply H.
  - apply list_elem_of_further, list_elem_of_here.
  - apply list_elem_of_here.
Defined.

(** A chat model that fails on the second of four chunks: the cells
    raise its exception.  A chat model that answers the second chunk
    without a tool call: the merge loop raises. *)
Lemma brute_force_merges_witness :
  (exists (text : string) (earlier : list (list message)),
      text ∈ take 3 four_chunks /\
      (chat_structured failing_chat_services ([] ++ (EvChat <$> earlier))
                       (extraction_messages text) = Raise rate_limited \/
       (chat_structured failing_chat_services ([] ++ (EvChat <$> earlier))
                        (extraction_messages text) = Ok None /\
        exc_cls rate_limited = OtherException "AttributeError"))) /\
  (exists (text : string) (earlier : list (list message)),
      text ∈ take 3 four_chunks /\
      (chat_structured silent_chat_services ([] ++ (EvChat <$> earlier))
                       (extraction_messages text) = Raise no_key_developments \/
       (chat_structured silent_chat_services ([] ++ (EvChat <$> earlier))
                        (extraction_messages text) = Ok None /\
        exc_cls no_key_developments = OtherException "AttributeError"))).
Proof.
  split.
  - destruct (brute_force_merges_the_answers failing_chat_services (doc_of "long") [])
      as (_ & _ & H).
    apply (H rate_limited). reflexivity.
  - destruct (brute_force_merges_the_answers silent_chat_services (doc_of "long") [])
      as (_ & _ & H).
    apply (H no_key_developments). reflexivity.
Defined.

(** An index that cannot be built, and one that can. *)
Lemma rag_approach_witness :
  rag_approach failing_chat_services (doc_of "long") []
  = (Raise rate_limited, [EvIndexTexts four_chunks]) /\
  exists calls,
    snd (rag_approach four_chunk_services (doc_of "long") []) =
      [] ++ [EvIndexTexts four_chunks; EvSimilaritySearch four_chunks rag_query 1] ++
            (EvChat <$> calls) /\
    length calls <= 1.
Proof.
  split.
  - destruct (rag_approach_indexes_every_chunk failing_chat_services (doc_of "long") [])
      as (H & _).
    apply H. reflexivity.
  - destruct (rag_approach_indexes_every_chunk four_chunk_services (doc_of "long") [])
      as (_ & H).
    apply (H tt). reflexivity.
Defined.

(** A download that fails, a write that fails, and a set up that goes
    through. *)
Lemma set_up_stops_witness :
  set_up (set_up_services (Raise offline) (Ok tt)) [] = (Raise offline, [EvHttpGet car_url]) /\
  set_up (set_up_services (Ok "<html/>") (Raise read_only)) []
  = (Raise read_only, [EvHttpGet car_url; EvWriteFile "car.html" "<html/>"]) /\
  exists document,
    set_up (set_up_services (Ok "<html/>") (Ok tt)) [] =
      (Ok document,
       [] ++ [EvHttpGet car_url; EvWriteFile "car.html" "<html/>"; EvLoadHtml "car.html"]) /\
    metadata document = metadata (doc_of "car") /\
    text_lines (page_content document) = text_lines (page_content (doc_of "car")).
Proof.
  split; [|split].
  - destruct (set_up_stops_at_first_failure (set_up_services (Raise offline) (Ok tt)) [])
      as (H & _).
    apply H. reflexivity.
  - destruct (set_up_stops_at_first_failure
                (set_up_services (Ok "<html/>") (Raise read_only)) []) as (_ & H & _).
    apply H; reflexivity.
  - destruct (set_up_stops_at_first_failure
                (set_up_services (Ok "<html/>") (Ok tt)) []) as (_ & _ & H).
    apply (H "<html/>" (doc_of "car") []); reflexivity.
Defined.

End PipelinesInstances.

(* ===================================================================== *)
(** ** The environment cell and the agent's events *)
(* ===================================================================== *)

Section Environment.

Import RunPodSetup.

Lemma ensure_again key q answer st :
  is_Some (fst st !! key) -> ensure key q answer st = (Ok tt, st).
Proof. unfold ensure. intros [v ->]. reflexivity. Qed.

(** With both variables set, the cell asks nothing and changes nothing. *)
Lemma env_cell_again api_key endpoint_id (environ : gmap string string) :
  is_Some (environ !! "RUNPOD_API_KEY") -> is_Some (environ !! "RUNPOD_ENDPOINT_ID") ->
  env_cell api_key endpoint_id environ = (Ok tt, (environ, [])).
Proof.
  intros H1 H2. unfold env_cell.
  rewrite (ensure_again "RUNPOD_API_KEY") by exact H1.
  now rewrite (ensure_again "RUNPOD_ENDPOINT_ID") by exact H2.
Qed.

(** A question that raises ends the cell with its exception. *)
Lemma env_cell_key_raises endpoint_id (environ : gmap string string) e :
  environ !! "RUNPOD_API_KEY" = None ->
  env_cell (Raise e) endpoint_id environ
  = (Raise e, (environ, [Getpass "Enter your RunPod API Key: "])).
Proof. intros H. unfold env_cell, ensure. cbn [fst snd]. now rewrite H. Qed.

Lemma env_cell_id_raises api_key (environ : gmap string string) e :
  is_Some (environ !! "RUNPOD_API_KEY") -> environ !! "RUNPOD_ENDPOINT_ID" = None ->
  env_cell api_key (Raise e) environ
  = (Raise e, (environ, [Input "Enter your RunPod Endpoint ID: "])).
Proof.
  intros [v Hv] H. unfold env_cell, ensure. cbn [fst snd]. rewrite Hv. cbn [fst snd].
  now rewrite H.
Qed.

(** The environment cell asks only for what is missing and overwrites
    nothing.  Whether it returns or raises, every variable that was set
    keeps its value and the variables other than the two are untouched;
    a variable it sets holds what was typed, which has no null byte.
    When it returns, both variables are set, and running it again asks
    nothing and changes nothing.  When it raises, the exception is the
    one of the question, or a [ValueError] for a typed value with a null
    byte, and the variable asked for stays unset.  The questions asked
    are those of the missing variables, the key first; the second is
    not asked when the first assignment raised. *)
Theorem env_cell_fills_only_what_is_missing
    (api_key endpoint_id : outcome string) (environ : gmap string string) :
  let run := env_cell api_key endpoint_id environ in
  let environ' := fst (snd run) in
  (forall k v, environ !! k = Some v -> environ' !! k = Some v) /\
  (forall k,
      k <> "RUNPOD_API_KEY" -> k <> "RUNPOD_ENDPOINT_ID" ->
      environ' !! k = environ !! k) /\
  (forall v,
      environ !! "RUNPOD_API_KEY" = None -> environ' !! "RUNPOD_API_KEY" = Some v ->
      api_key = Ok v /\ has_nul v = false) /\
  (forall v,
      environ !! "RUNPOD_ENDPOINT_ID" = None -> environ' !! "RUNPOD_ENDPOINT_ID" = Some v ->
      endpoint_id = Ok v /\ has_nul v = false) /\
  (fst run = Ok tt ->
      is_Some (environ' !! "RUNPOD_API_KEY") /\
      is_Some (environ' !! "RUNPOD_ENDPOINT_ID") /\
      forall api_key' endpoint_id',
        env_cell api_key' endpoint_id' environ' = (Ok tt, (environ', []))) /\
  (forall e,
      fst run = Raise e ->
      (environ' !! "RUNPOD_API_KEY" = None /\
       (api_key = Raise e \/
        exists v, api_key = Ok v /\ has_nul v = true /\ exc_cls e = ValueError)) \/
      (is_Some (environ' !! "RUNPOD_API_KEY") /\
       environ' !! "RUNPOD_ENDPOINT_ID" = None /\
       (endpoint_id = Raise e \/
        exists v, endpoint_id = Ok v /\ has_nul v = true /\ exc_cls e = ValueError))) /\
  snd (snd run) =
    match environ !! "RUNPOD_API_KEY" with
    | Some _ => []
    | None => [Getpass "Enter your RunPod API Key: "]
    end ++
    match environ' !! "RUNPOD_API_KEY", environ !! "RUNPOD_ENDPOINT_ID" with
    | Some _, None => [Input "Enter your RunPod Endpoint ID: "]
    | _, _ => []
    end.
Proof.
  cbv zeta.
  remember (env_cell api_key endpoint_id environ) as run eqn:Hrun.
  unfold env_cell, ensure in Hrun. cbn [fst snd] in Hrun.
  destruct (environ !! "RUNPOD_API_KEY") as [k0|] eqn:Hk;
    [|destruct api_key as [v1|e1]; [destruct (has_nul v1) eqn:N1|]];
    cbn [fst snd] in Hrun;
    rewrite ?lookup_insert_ne in Hrun by discriminate;
    try (destruct (environ !! "RUNPOD_ENDPOINT_ID") as [i0|] eqn:Hi;
         [|destruct endpoint_id as [v2|e2]; [destruct (has_nul v2) eqn:N2|]]);
    subst run; cbn [fst snd app];
    rewrite ?lookup_insert_eq, ?lookup_insert_ne, ?Hk, ?Hi by discriminate.
  all: env_solve env_cell_again.
Qed.
End Environment.

Section AgentEvents.

Import GoogleDrive.

Context {Msg : Type}.
Variable pretty : Msg -> string.

Lemma bind_assoc {X Y Z} (m : M X) (k1 : X -> M Y) (k2 : Y -> M Z) tr :
  bind (bind m k1) k2 tr = bind m (fun x => bind (k1 x) k2) tr.
Proof. unfold bind. destruct (m tr) as [[x|e] tr']; reflexivity. Qed.

Lemma for_each_app {X} (xs ys : list X) (f : X -> M unit) tr :
  for_each (xs ++ ys) f tr = bind (for_each xs f) (fun _ => for_each ys f) tr.
Proof.
  revert tr; induction xs as [|x xs IH]; intros tr; [reflexivity|].
  cbn [app for_each]. rewrite bind_assoc, !(bind_run (f x)).
  destruct (f x tr) as [[[]|e] tr']; [apply IH|reflexivity].
Qed.

Lemma print_good_events {Y} (events : list (gmap string (list Msg))) (lasts : list Msg)
    (k : M Y) tr :
  Forall2 ends_with events lasts ->
  bind (for_each events
          (fun event =>
             messages <- dict_getitem event "messages" ;;
             m <- getitem_last messages ;;
             print (pretty m))) (fun _ => k) tr
  = k (tr ++ pretty_lines pretty lasts).
Proof.
  unfold pretty_lines. intros H. revert tr.
  induction H as [|event m events lasts (msgs & Hm & Hl) _ IH]; intros tr.
  - cbn. now rewrite app_nil_r.
  - cbn [for_each]. rewrite bind_assoc, bind_run, bind_run.
    unfold dict_getitem. rewrite Hm. unfold ret at 1.
    rewrite bind_run. unfold getitem_last. rewrite Hl. unfold ret at 1. unfold print at 1.
    rewrite IH. cbn [fmap list_fmap]. rewrite <- app_assoc. reflexivity.
Qed.

(** The loop over the agent's events prints the last message of each
    event, in order, and stops at the first event it cannot read: an
    event without ["messages"] raises a [KeyError], an event whose list
    of messages is empty raises [IndexError], and in both cases the
    earlier events are already printed and the later ones are not. *)
Theorem print_events_stops_at_first_bad_event
    (good : list (gmap string (list Msg))) (lasts : list Msg)
    (ending : option exception) (tr : trace) :
  Forall2 ends_with good lasts ->
  print_events pretty good ending tr =
    (match ending with None => Ok tt | Some e => Raise e end,
     tr ++ pretty_lines pretty lasts) /\
  (forall bad rest,
      bad !! "messages" = None ->
      exists e,
        print_events pretty (good ++ bad :: rest) ending tr
        = (Raise e, tr ++ pretty_lines pretty lasts) /\
        exc_cls e = KeyError) /\
  (forall bad rest,
      bad !! "messages" = Some [] ->
      print_events pretty (good ++ bad :: rest) ending tr
      = (Raise (Exc IndexError "list index out of range"),
         tr ++ pretty_lines pretty lasts)).
Proof.
  intros H. unfold print_events. split; [|split].
  - rewrite (print_good_events good lasts _ tr H). destruct ending; reflexivity.
  - intros bad rest Hbad. exists (Exc KeyError "messages"). split; [|reflexivity].
    rewrite bind_run, for_each_app, (print_good_events good lasts _ tr H).
    cbn [for_each]. unfold bind, dict_getitem. rewrite Hbad. reflexivity.
  - intros bad rest Hbad.
    rewrite bind_run, for_each_app, (print_good_events good lasts _ tr H).
    cbn [for_each]. unfold bind, dict_getitem. rewrite Hbad. reflexivity.
Qed.

End AgentEvents.

Section AgentEventsInstances.

Import GoogleDrive RunPodSetup.

(** Two events, then a state without messages. *)
Lemma print_events_witness :
  print_events (fun m : string => m)
    [ {[ "messages" := ["user: who is Yann LeCun?"] ]};
      {[ "messages" := ["user: who is Yann LeCun?"; "ai: a researcher"] ]} ] None []
  = (Ok tt, [EvPrint (String.append "user: who is Yann LeCun?" single_newline);
             EvPrint (String.append "ai: a researcher" single_newline)]).
Proof.
  apply (print_events_stops_at_first_bad_event (fun m : string => m)
           [ {[ "messages" := ["user: who is Yann LeCun?"] ]};
             {[ "messages" := ["user: who is Yann LeCun?"; "ai: a researcher"] ]} ]
           ["user: who is Yann LeCun?"; "ai: a researcher"] None []).
  repeat constructor; eexists; split; reflexivity.
Defined.

(** A user with the key set who types an endpoint id with a null byte:
    the key keeps its value, the assignment raises and the endpoint id
    stays unset. *)
Lemma env_cell_witness :
  fst (snd (env_cell (Ok "typed-key") (Ok (String Ascii.zero "id"))
                     {[ "RUNPOD_API_KEY" := "secret" ]}))
      !! "RUNPOD_API_KEY" = Some "secret" /\
  fst (snd (env_cell (Ok "typed-key") (Ok (String Ascii.zero "id"))
                     {[ "RUNPOD_API_KEY" := "secret" ]}))
      !! "RUNPOD_ENDPOINT_ID" = None.
Proof.
  destruct (env_cell_fills_only_what_is_missing (Ok "typed-key")
              (Ok (String Ascii.zero "id")) {[ "RUNPOD_API_KEY" := "secret" ]})
    as (Hkept & _ & _ & _ & _ & Hraise & _).
  split.
  - apply Hkept. reflexivity.
  - destruct (Hraise (Exc ValueError "embedded null byte") eq_refl)
      as [[Hunset _]|(_ & Hid & _)]; [|exact Hid].
    rewrite (Hkept "RUNPOD_API_KEY" "secret" eq_refl) in Hunset. discriminate Hunset.
Defined.

End AgentEventsInstances.

(* ===================================================================== *)
(** ** Error handling in the notebooks *)
(* ===================================================================== *)

Section ErrorHandling.

Import GoogleDrive RunPodSetup LongText LongTextCells RunPodNotebook.

Variable sv : Services.

(** C4 (amended). Error handling is limited to catch-and-print.

    - In each of the four guarded cells (invoke, stream, ainvoke,
      astream), when the call to the endpoint raises an exception that
      is an instance of [Exception], the cell ends normally: the
      exception is not raised again, and the handler prints one line
      that contains [str(e)].  There is no retry and no recovery: the
      endpoint was called once, and the handler's line is the last
      thing the cell does.  An exception that is not an instance of
      [Exception] leaves the cell.
    - The chaining cell is two such blocks, one after the other, each
      with one call and the same handling.
    - No other cell handles a failure.  In the environment cell, a
      question that raises ends the cell with its exception.  In the
      set up, the exception of the download, of the write or of the
      loader ends the cell at that step.  The batch returns only when
      every call and every parse returned.  The merge loop raises on an
      extraction that is [None].  In the RAG cells, the exception of
      the index, of the search or of the chat model ends the cell at
      that step.  The loop over the agent's events raises what the
      stream of events raises, after the events it printed. *)
Theorem error_handling_is_catch_and_print :
  (forall m tr e,
      underlying_raises sv m (tr ++ header m) = Some e ->
      (isinstance_Exception (exc_cls e) = true ->
         cell sv m tr = (Ok tt, tr ++ handled sv m tr e) /\
         last (handled sv m tr e)
           = Some (EvPrint (error_message m (exc_str e) +:+ single_newline)) /\
         contains (error_message m (exc_str e)) (exc_str e) /\
         endpoint_calls (handled sv m tr e) = [(m, RunPodNotebook.prompt)]) /\
      (isinstance_Exception (exc_cls e) = false ->
         fst (cell sv m tr) = Raise e /\
         endpoint_calls (drop (length tr) (snd (cell sv m tr)))
           = [(m, RunPodNotebook.prompt)])) /\
  (forall tr,
      cell_chain sv tr =
        (guarded_chain sv m_invoke "bears" "--- Chain Response ---"
                       "Error running chain: " ;;
         guarded_chain sv m_ainvoke "robots" "--- Async Chain Response ---"
                       "Error running async chain: ") tr) /\
  (forall m topic title failure tr e,
      runpod_generate sv tr m ("Tell me a joke about " +:+ topic) = Raise e ->
      (isinstance_Exception (exc_cls e) = true ->
         guarded_chain sv m topic title failure tr =
           (Ok tt, tr ++ [EvRunPod m ("Tell me a joke about " +:+ topic);
                          EvPrint ((failure +:+ exc_str e) +:+ single_newline)]) /\
         contains (failure +:+ exc_str e) (exc_str e)) /\
      (isinstance_Exception (exc_cls e) = false ->
         guarded_chain sv m topic title failure tr =
           (Raise e, tr ++ [EvRunPod m ("Tell me a joke about " +:+ topic)]))) /\
  (forall api_key endpoint_id environ e,
      (environ !! "RUNPOD_API_KEY" = None ->
         fst (env_cell (Raise e) endpoint_id environ) = Raise e) /\
      (is_Some (environ !! "RUNPOD_API_KEY") ->
       environ !! "RUNPOD_ENDPOINT_ID" = None ->
         fst (env_cell api_key (Raise e) environ) = Raise e)) /\
  (forall tr e,
      (http_get sv tr car_url = Raise e ->
         set_up sv tr = (Raise e, tr ++ [EvHttpGet car_url])) /\
      (forall text,
         http_get sv tr car_url = Ok text ->
         write_file sv (tr ++ [EvHttpGet car_url]) "car.html" text = Raise e ->
         set_up sv tr = (Raise e, tr ++ [EvHttpGet car_url; EvWriteFile "car.html" text])) /\
      (forall text,
         http_get sv tr car_url = Ok text ->
         write_file sv (tr ++ [EvHttpGet car_url]) "car.html" text = Ok tt ->
         bs_html_load sv (tr ++ [EvHttpGet car_url; EvWriteFile "car.html" text]) "car.html"
           = Raise e ->
         set_up sv tr =
           (Raise e, tr ++ [EvHttpGet car_url; EvWriteFile "car.html" text;
                            EvLoadHtml "car.html"]))) /\
  (forall document tr results,
      fst (brute_force sv document tr) = Ok results ->
      Forall2 (fun text result =>
                 exists earlier,
                   chat_structured sv (tr ++ (EvChat <$> earlier))
                                   (extraction_messages text) = Ok result)
              (take 3 (text_splitter sv (page_content document))) results) /\
  (forall extractions tr,
      None ∈ extractions ->
      exists e,
        merge_cell extractions tr = (Raise e, tr) /\
        exc_cls e = OtherException "AttributeError") /\
  (forall document tr e,
      faiss_from_texts sv tr (text_splitter sv (page_content document)) = Raise e ->
      rag_approach sv document tr =
        (Raise e, tr ++ [EvIndexTexts (text_splitter sv (page_content document))])) /\
  (forall vs query tr e,
      (similarity_search sv tr (indexed_texts vs) query 1 = Raise e ->
         invoke (rag_extractor sv vs) query tr =
           (Raise e, tr ++ [EvSimilaritySearch (indexed_texts vs) query 1])) /\
      (forall d rest,
         similarity_search sv tr (indexed_texts vs) query 1 = Ok (d :: rest) ->
         chat_structured sv (tr ++ [EvSimilaritySearch (indexed_texts vs) query 1])
                         (extraction_messages (page_content d)) = Raise e ->
         invoke (rag_extractor sv vs) query tr =
           (Raise e, tr ++ [EvSimilaritySearch (indexed_texts vs) query 1;
                            EvChat (extraction_messages (page_content d))]))) /\
  (forall (Msg : Type) (pretty : Msg -> string) good lasts e tr,
      Forall2 ends_with good lasts ->
      print_events pretty good (Some e) tr = (Raise e, tr ++ pretty_lines pretty lasts)).
Proof.
  repeat apply conj.
  - intros m tr e Hraise. rewrite (cell_run_raising sv m tr e Hraise). split; intros ->.
    + split; [reflexivity|]. split; [|split].
      * unfold handled. rewrite !app_assoc. apply last_snoc.
      * apply error_message_contains.
      * unfold handled.
        rewrite !endpoint_calls_app, endpoint_calls_header, endpoint_calls_prints.
        reflexivity.
    + split; [reflexivity|]. cbn [snd]. rewrite drop_app_length.
      rewrite !endpoint_calls_app, endpoint_calls_header, endpoint_calls_prints.
      reflexivity.
  - reflexivity.
  - intros m topic title failure tr e Hraise. unfold guarded_chain.
    rewrite chain_try_run, Hraise. split; intros ->; [|reflexivity].
    split; [reflexivity|]. exists failure, EmptyString. now rewrite append_empty_r.
  - intros api_key endpoint_id environ e. split.
    + intros H. now rewrite env_cell_key_raises.
    + intros H1 H2. now rewrite env_cell_id_raises.
  - intros tr e. rewrite set_up_run. split; [|split].
    + now intros ->.
    + now intros text -> ->.
    + now intros text -> -> ->.
  - intros document tr results H.
    destruct (brute_force_spec sv document tr) as (calls & _ & _ & Hok & _).
    now destruct (Hok results H).
  - intros extractions tr Hin. exists no_key_developments.
    split; [apply extend_all_none, Hin|reflexivity].
  - intros document tr e H. now rewrite rag_approach_run, H.
  - intros vs query tr e. rewrite rag_extractor_run. split.
    + now intros ->.
    + now intros d rest -> ->.
  - intros Msg pretty good lasts e tr H. unfold print_events.
    now rewrite (print_good_events pretty good lasts _ tr H).
Qed.

End ErrorHandling.

Section ErrorHandlingInstances.

Import RunPodNotebook.

(** An endpoint that refuses the connection: the handler runs after two
    streamed chunks, and in the second block of the chaining cell. *)
Lemma error_handling_witness :
  cell refusing_services m_stream [] =
    (Ok tt, handled refusing_services m_stream [] refused) /\
  guarded_chain refusing_services m_ainvoke "robots" "--- Async Chain Response ---"
                "Error running async chain: " [] =
    (Ok tt, [EvRunPod m_ainvoke "Tell me a joke about robots";
             EvPrint (("Error running async chain: " +:+ exc_str refused)
                      +:+ single_newline)]).
Proof.
  destruct (error_handling_is_catch_and_print refusing_services)
    as (Hcell & _ & Hchain & _).
  split.
  - destruct (Hcell m_stream [] refused eq_refl) as [H _].
    destruct (H eq_refl) as [Hrun _]. exact Hrun.
  - destruct (Hchain m_ainvoke "robots" "--- Async Chain Response ---"
                     "Error running async chain: " [] refused eq_refl) as [H _].
    destruct (H eq_refl) as [Hrun _]. exact Hrun.
Defined.

End ErrorHandlingInstances.
